(** * Washington EV report: the point decoder, the normaliser and the chart builders

    A shallow embedding of [hello.py].  The report is a straight pipeline:
    [load_and_prepare_data] renames the source columns, coerces three of
    them to numbers and decodes the point text into [longitude] and
    [latitude]; eight builders then filter or aggregate the frame and emit
    text blocks and charts.

    Conventions of the embedding:
    - a Python [str] is a [list ascii] of code points below 256, literals
      are written [str "..."];
    - a Python [float] is a [spec_float] of binary64; [float(s)] is modelled
      down to the correctly rounded value;
    - a raised exception is the [Raise] outcome of the [result] type;
    - calls to [text] and [plotly] append to the output log of the [world];
    - a data frame is a list of column labels and a list of rows;
    - what pandas and numpy leave open (the order of ties in a sort, the
      indices a seeded sampler draws, the text-to-number reader of
      [to_numeric]) is a [Variable] of the section, constrained by
      [Hypothesis] to what the libraries document.
    A call of [plotly.express] builds a chart specification; the one call
    that can name a column the frame lacks, [px.scatter_mapbox] with its
    [hover_data], raises the [ValueError] plotly raises for it. *)

From Stdlib Require Import ZArith Ascii String List Bool Lia.
From Stdlib Require Import Floats.SpecFloat.
From stdpp Require Import base tactics option list strings gmap sorting.

Local Open Scope Z_scope.

(* ===================================================================== *)
(** ** Python strings *)

Module PyStr.

Definition pystr := list ascii.

Definition str (s : string) : pystr := list_ascii_of_string s.

Definition code (a : ascii) : N := N_of_ascii a.

(** [str.isspace] for one code point below 256. *)
Definition is_space (a : ascii) : bool :=
  let n := code a in
  ((9 <=? n) && (n <=? 13) || (28 <=? n) && (n <=? 32)
   || (n =? 133) || (n =? 160))%N.

Definition is_digit (a : ascii) : bool :=
  let n := code a in ((48 <=? n) && (n <=? 57))%N.

Definition digit_val (a : ascii) : Z := Z.of_N (code a) - 48.

Fixpoint lstrip (s : pystr) : pystr :=
  match s with
  | c :: s' => if is_space c then lstrip s' else s
  | [] => []
  end.

Definition rstrip (s : pystr) : pystr := rev (lstrip (rev s)).

(** [s.strip()] *)
Definition strip (s : pystr) : pystr := rstrip (lstrip s).

(** [s.startswith(p)] *)
Fixpoint startswith (s p : pystr) {struct p} : bool :=
  match p, s with
  | [], _ => true
  | a :: p', b :: s' => Ascii.eqb a b && startswith s' p'
  | _ :: _, [] => false
  end.

(** [s.endswith(p)] *)
Definition endswith (s p : pystr) : bool := startswith (rev s) (rev p).

(** One bound of a slice, clamped the way Python clamps it. *)
Definition slice_bound (n i : Z) : nat :=
  Z.to_nat (Z.min n (Z.max 0 (if i <? 0 then i + n else i))).

(** [s[i:j]] *)
Definition slice (s : pystr) (i j : Z) : pystr :=
  let n := Z.of_nat (length s) in
  let lo := slice_bound n i in
  let hi := slice_bound n j in
  take (hi - lo) (drop lo s).

(** [s.split()]: the scan keeps the current token reversed in [cur]. *)
Fixpoint split_go (cur : pystr) (s : pystr) : list pystr :=
  match s with
  | [] => match cur with [] => [] | _ => [rev cur] end
  | c :: s' =>
      if is_space c then
        match cur with
        | [] => split_go [] s'
        | _ => rev cur :: split_go [] s'
        end
      else split_go (c :: cur) s'
  end.

Definition split (s : pystr) : list pystr := split_go [] s.

End PyStr.
Export PyStr.

(* ===================================================================== *)
(** ** Python floats: [float(s)] on a string *)

Module PyFloat.

Definition float := spec_float.

Definition prec : Z := 53.
Definition emax : Z := 1024.

(** [np.nan] *)
Definition nan : float := S754_nan.

Definition is_nan (x : float) : bool :=
  match x with S754_nan => true | _ => false end.

(** [x == y] on floats: NaN differs from everything, the two zeros are
    equal. *)
Definition float_eqb (x y : float) : bool :=
  match x, y with
  | S754_zero _, S754_zero _ => true
  | S754_infinity a, S754_infinity b => Bool.eqb a b
  | S754_finite s m e, S754_finite s' m' e' =>
      Bool.eqb s s' && Pos.eqb m m' && Z.eqb e e'
  | _, _ => false
  end.

(** The binary64 nearest to [(-1)^neg * m * 10^scale] (ties to even).
    For a negative scale the quotient is taken with more than 60 bits and
    a sticky bit, so one rounding to 53 bits gives the nearest float. *)
Definition of_decimal (neg : bool) (m : Z) (scale : Z) : float :=
  if m =? 0 then S754_zero neg
  else
    let sgn (x : Z) := if neg then - x else x in
    if 0 <=? scale then binary_normalize prec emax (sgn (m * 10 ^ scale)) 0 neg
    else
      let d := 10 ^ (- scale) in
      let k := Z.log2 d + 64 in
      let q := (m * 2 ^ k) / d in
      let sticky := if (m * 2 ^ k) mod d =? 0 then 0 else 1 in
      binary_normalize prec emax (sgn (2 * q + sticky)) (- k - 1) neg.

(** The integer a digit string denotes, most significant digit first. *)
Definition digits_val (ds : pystr) : Z :=
  fold_left (fun acc c => 10 * acc + digit_val c) ds 0.

Fixpoint span_digits (s : pystr) : pystr * pystr :=
  match s with
  | c :: s' =>
      if is_digit c then let '(ds, r) := span_digits s' in (c :: ds, r)
      else ([], s)
  | [] => ([], [])
  end.

Definition lower (a : ascii) : ascii :=
  let n := code a in
  if ((65 <=? n) && (n <=? 90))%N then ascii_of_N (n + 32) else a.

(** An optional sign in front of [s]: whether it is a minus, and the rest. *)
Definition take_sign (s : pystr) : bool * pystr :=
  match s with
  | "-"%char :: r => (true, r)
  | "+"%char :: r => (false, r)
  | _ => (false, s)
  end.

(** ["inf"], ["infinity"] and ["nan"], in any case, after the sign. *)
Definition parse_inf_or_nan (s : pystr) : option float :=
  let '(neg, r) := take_sign s in
  let r := map lower r in
  if bool_decide (r = str "inf") || bool_decide (r = str "infinity")
  then Some (S754_infinity neg)
  else if bool_decide (r = str "nan") then Some S754_nan
  else None.

(** The exponent part: nothing, or [e]/[E], an optional sign and at least
    one digit.  [None] when text is left that is not such an exponent. *)
Definition parse_exponent (s : pystr) : option Z :=
  match s with
  | [] => Some 0
  | c :: r =>
      if Ascii.eqb (lower c) "e"%char then
        let '(eneg, r1) := take_sign r in
        match span_digits r1 with
        | ((_ :: _) as ds, []) =>
            Some (if eneg then - digits_val ds else digits_val ds)
        | _ => None
        end
      else None
  end.

(** A decimal number: digits with an optional point, at least one digit
    in all, then the exponent part. *)
Definition parse_decimal (s : pystr) : option float :=
  let '(neg, r) := take_sign s in
  let '(ip, r1) := span_digits r in
  let '(fp, r2) :=
    match r1 with
    | "."%char :: r1' => span_digits r1'
    | _ => ([], r1)
    end in
  match ip ++ fp with
  | [] => None
  | ds =>
      match parse_exponent r2 with
      | Some e => Some (of_decimal neg (digits_val ds) (e - Z.of_nat (length fp)))
      | None => None
      end
  end.

(** Underscores may only stand between two digits; they are dropped. *)
Fixpoint drop_underscores (prev : option ascii) (s : pystr) : option pystr :=
  match s with
  | [] => match prev with
          | Some "_"%char => None
          | _ => Some []
          end
  | c :: s' =>
      if Ascii.eqb c "_"%char then
        match prev with
        | Some p => if is_digit p then drop_underscores (Some c) s' else None
        | None => None
        end
      else
        match prev with
        | Some "_"%char =>
            if is_digit c then option_map (cons c) (drop_underscores (Some c) s')
            else None
        | _ => option_map (cons c) (drop_underscores (Some c) s')
        end
  end.

(** [float(s)]: [None] stands for the [ValueError]. *)
Definition float_of_str (s : pystr) : option float :=
  match drop_underscores None (strip s) with
  | Some t =>
      match parse_decimal t with
      | Some x => Some x
      | None => parse_inf_or_nan t
      end
  | None => None
  end.

End PyFloat.
Export PyFloat.

(* ===================================================================== *)
(** ** Cells, exceptions and data frames *)

(** A cell of a frame: [None], a string, an integer or a float. *)
Inductive cell :=
| CNone
| CStr (s : pystr)
| CInt (z : Z)
| CFloat (x : float).

(** [pd.isna(v)] on a scalar. *)
Definition isna (v : cell) : bool :=
  match v with
  | CNone => true
  | CFloat x => is_nan x
  | _ => false
  end.

Definition notna (v : cell) : bool := negb (isna v).

(** [a == b] on cells, as the hash tables of pandas compare keys. *)
Definition cell_eqb (a b : cell) : bool :=
  match a, b with
  | CStr s, CStr t => bool_decide (s = t)
  | CInt x, CInt y => x =? y
  | CFloat x, CFloat y => float_eqb x y
  | _, _ => false
  end.

(** The exact value of a number, for comparisons: [m * 2^e], or an
    infinity. *)
Inductive ereal := NegInf | Fin (m e : Z) | PosInf.

Definition ereal_of_cell (v : cell) : option ereal :=
  match v with
  | CInt z => Some (Fin z 0)
  | CFloat (S754_zero _) => Some (Fin 0 0)
  | CFloat (S754_finite s m e) => Some (Fin (if s then Z.neg m else Z.pos m) e)
  | CFloat (S754_infinity s) => Some (if s then NegInf else PosInf)
  | _ => None
  end.

Definition ereal_leb (a b : ereal) : bool :=
  match a, b with
  | NegInf, _ => true
  | _, PosInf => true
  | Fin m1 e1, Fin m2 e2 =>
      let e := Z.min e1 e2 in
      m1 * 2 ^ (e1 - e) <=? m2 * 2 ^ (e2 - e)
  | _, _ => false
  end.

Fixpoint pystr_leb (s t : pystr) : bool :=
  match s, t with
  | [], _ => true
  | _ :: _, [] => false
  | a :: s', b :: t' =>
      if (code a <? code b)%N then true
      else if (code b <? code a)%N then false
      else pystr_leb s' t'
  end.

(** The order pandas sorts keys in: numbers by value, then strings by code
    point, missing values last. *)
Inductive sort_key := KNum (x : ereal) | KStr (s : pystr) | KMissing.

Definition key_of (v : cell) : sort_key :=
  match v with
  | CStr s => KStr s
  | _ => match ereal_of_cell v with Some x => KNum x | None => KMissing end
  end.

Definition key_leb (a b : sort_key) : bool :=
  match a, b with
  | KNum x, KNum y => ereal_leb x y
  | KNum _, _ => true
  | KStr _, KNum _ => false
  | KStr s, KStr t => pystr_leb s t
  | KStr _, KMissing => true
  | KMissing, KMissing => true
  | KMissing, _ => false
  end.

Definition cell_leb (a b : cell) : bool := key_leb (key_of a) (key_of b).

Fixpoint cells_leb (k1 k2 : list cell) : bool :=
  match k1, k2 with
  | [], _ => true
  | _ :: _, [] => false
  | a :: k1', b :: k2' =>
      if cell_eqb a b then cells_leb k1' k2' else cell_leb a b
  end.

Inductive exn :=
| KeyError (label : string)
| AttributeError
| TypeError
| ValueError.

(** The outcome of an expression that may raise. *)
Inductive result (A : Type) :=
| Ok (a : A)
| Raise (e : exn).
Arguments Ok {A} a.
Arguments Raise {A} e.

Global Instance result_ret : MRet result := fun _ a => Ok a.
Global Instance result_bind : MBind result := fun _ _ f r =>
  match r with
  | Ok a => f a
  | Raise e => Raise e
  end.

(** [try: body except Exception: handler] *)
Definition try_except {A} (body : result A) (handler : exn -> result A) : result A :=
  match body with
  | Ok a => Ok a
  | Raise e => handler e
  end.

Record DataFrame := mkDF {
  columns : list string;
  rows : list (list cell)
}.

(** Every row has one cell per column. *)
Definition wf_frame (df : DataFrame) : Prop :=
  Forall (fun r => length r = length (columns df)) (rows df).

Global Instance wf_frame_dec df : Decision (wf_frame df).
Proof. unfold wf_frame. apply _. Defined.

Fixpoint index_of (c : string) (labels : list string) : option nat :=
  match labels with
  | [] => None
  | l :: labels' => if String.eqb l c then Some 0%nat else S <$> index_of c labels'
  end.

(** [c in df.columns] *)
Definition has_column (df : DataFrame) (c : string) : bool :=
  bool_decide (c ∈ columns df).

Definition cell_at (r : list cell) (i : nat) : cell := default CNone (r !! i).

(** [len(df)] *)
Definition len (df : DataFrame) : nat := length (rows df).

(** [df.empty] *)
Definition empty (df : DataFrame) : bool :=
  bool_decide (rows df = []) || bool_decide (columns df = []).

(** The position of a label, or the [KeyError] pandas raises for it. *)
Definition locate (df : DataFrame) (c : string) : result nat :=
  match index_of c (columns df) with
  | Some i => Ok i
  | None => Raise (KeyError c)
  end.

(** [df[c]] read as one column: the cells under the first label [c]. *)
Definition getitem (df : DataFrame) (c : string) : result (list cell) :=
  i ← locate df c; Ok ((fun r => cell_at r i) <$> rows df).

(** What [df[c]] is: a column, or, when several columns carry the label
    [c], the frame of these columns. *)
Inductive selection :=
| Series (s : list cell)
| Frame (d : DataFrame).

Definition occurrences (c : string) (labels : list string) : nat :=
  length (List.filter (String.eqb c) labels).

(** The columns of [df] that carry the label [c]. *)
Definition project (df : DataFrame) (c : string) : DataFrame :=
  mkDF (List.filter (String.eqb c) (columns df))
    ((fun r => snd <$> List.filter (fun lx => String.eqb c lx.1) (zip (columns df) r))
       <$> rows df).

(** [df[c]] *)
Definition select (df : DataFrame) (c : string) : result selection :=
  s ← getitem df c;
  if bool_decide (occurrences c (columns df) = 1%nat) then Ok (Series s)
  else Ok (Frame (project df c)).

(** [df[c] = vals]: an existing column is overwritten in place, a new one
    is appended. *)
Definition setitem (df : DataFrame) (c : string) (vals : list cell) : DataFrame :=
  match index_of c (columns df) with
  | Some i => mkDF (columns df) (zip_with (fun r v => <[i := v]> r) (rows df) vals)
  | None => mkDF (columns df ++ [c]) (zip_with (fun r v => r ++ [v]) (rows df) vals)
  end.

(** [df.rename(columns=mapping)] *)
Definition rename (df : DataFrame) (mapping : gmap string string) : DataFrame :=
  mkDF ((fun c => default c (mapping !! c)) <$> columns df) (rows df).

(** [df.columns = labels] *)
Definition set_columns (df : DataFrame) (labels : list string) : result DataFrame :=
  if bool_decide (length labels = length (columns df))
  then Ok (mkDF labels (rows df))
  else Raise ValueError.

(** [df.dropna(subset=labels)] *)
Definition dropna (df : DataFrame) (subset : list string) : result DataFrame :=
  idx ← mapM (locate df) subset;
  Ok (mkDF (columns df)
        (List.filter (fun r => forallb (fun i => notna (cell_at r i)) idx) (rows df))).

(** [df.head(n)] *)
Definition head (df : DataFrame) (n : nat) : DataFrame :=
  mkDF (columns df) (take n (rows df)).

(** One pass of a counting hash table: the keys keep the order in which
    they are first met. *)
Fixpoint bump {K} (eqb : K -> K -> bool) (k : K) (acc : list (K * Z)) : list (K * Z) :=
  match acc with
  | [] => [(k, 1)]
  | (k', n) :: acc' =>
      if eqb k' k then (k', n + 1) :: acc' else (k', n) :: bump eqb k acc'
  end.

Definition count_keys {K} (eqb : K -> K -> bool) (ks : list K) : list (K * Z) :=
  fold_left (fun acc k => bump eqb k acc) ks [].

Fixpoint cells_eqb (k1 k2 : list cell) : bool :=
  match k1, k2 with
  | [], [] => true
  | a :: k1', b :: k2' => cell_eqb a b && cells_eqb k1' k2'
  | _, _ => false
  end.

(** Whether a column can be ordered: pandas raises a [TypeError] when it
    has to compare a string with a number. *)
Definition is_text (v : cell) : bool :=
  match v with CStr _ => true | _ => false end.

Definition is_number (v : cell) : bool :=
  match ereal_of_cell v with Some _ => true | None => false end.

Definition orderable (vals : list cell) : bool :=
  negb (existsb is_text vals && existsb is_number vals).

Definition int_of_cell (v : cell) : Z :=
  match v with CInt z => z | _ => 0 end.

(* ===================================================================== *)
(** ** The rendering collaborator and the effects of a builder *)

Inductive chart_kind := ScatterMapbox | Bar | Pie | Histogram | Box | Line.

(** A chart specification: its kind, the frame handed to it and its title.
    The remaining keyword arguments only style the chart. *)
Record figure := mkFig {
  kind : chart_kind;
  data : DataFrame;
  title : string
}.

Inductive event :=
| Text (s : string)
| Plotly (fig : figure).

(** What a run can touch: the blocks rendered so far and the state of the
    process-wide numpy generator. *)
Record world := mkWorld {
  out : list event;
  np_random : N
}.

Definition M (A : Type) : Type := world -> result A * world.

Global Instance M_ret : MRet M := fun _ a w => (Ok a, w).
Global Instance M_bind : MBind M := fun _ _ f m w =>
  match m w with
  | (Ok a, w') => f a w'
  | (Raise e, w') => (Raise e, w')
  end.

Definition lift {A} (r : result A) : M A := fun w => (r, w).

(** [text(s)] *)
Definition text (s : string) : M unit :=
  fun w => (Ok tt, mkWorld (out w ++ [Text s]) (np_random w)).

(** [plotly(fig)] *)
Definition plotly (fig : figure) : M unit :=
  fun w => (Ok tt, mkWorld (out w ++ [Plotly fig]) (np_random w)).

Definition nl : string := String (ascii_of_nat 10) EmptyString.

(** The charts among the rendered blocks. *)
Definition charts (evs : list event) : list figure :=
  omap (fun e => match e with Plotly f => Some f | Text _ => None end) evs.

(* ===================================================================== *)
(** ** hello.py *)

Definition abbr : gmap string string :=
  list_to_map [
    ("BEV", "Battery Electric Vehicle");
    ("PHEV", "Plug-in Hybrid Electric Vehicle");
    ("MSRP", "Manufacturer's Suggested Retail Price");
    ("CAFV", "Clean Alternative Fuel Vehicle");
    ("VIN", "Vehicle Identification Number");
    ("DOL", "Department of Licensing");
    ("EV", "Electric Vehicle");
    ("WA", "Washington")
  ]%string.

Definition abbr_explain (keys : list string) : string :=
  String.concat nl
    (omap (fun k => (fun v => "**" +:+ k +:+ "**: " +:+ v) <$> abbr !! k) keys).

Definition parse_point_body (val : cell) : result (float * float) :=
  if isna val then Ok (nan, nan)
  else
    val ← match val with
          | CStr s => Ok (strip s)
          | _ => Raise AttributeError
          end;
    if startswith val (str "POINT (") && endswith val (str ")") then
      let coords := split (slice val 7 (-1)) in
      if bool_decide (length coords = 2%nat) then
        x ← from_option Ok (Raise ValueError) (float_of_str (coords !!! 0%nat));
        y ← from_option Ok (Raise ValueError) (float_of_str (coords !!! 1%nat));
        Ok (x, y)
      else Ok (nan, nan)
    else Ok (nan, nan).

Definition parse_point (val : cell) : result (float * float) :=
  try_except (parse_point_body val) (fun _ => Ok (nan, nan)).

Definition column_map : gmap string string :=
  list_to_map [
    ("VIN (1-10)", "vin_1_10");
    ("County", "county");
    ("City", "city");
    ("State", "state");
    ("Postal Code", "zip_code");
    ("Model Year", "model_year");
    ("Make", "make");
    ("Model", "model");
    ("Electric Vehicle Type", "ev_type");
    ("Clean Alternative Fuel Vehicle (CAFV) Eligibility", "cafv_type");
    ("Electric Range", "electric_range");
    ("Base MSRP", "base_msrp");
    ("Legislative District", "legislative_district");
    ("DOL Vehicle ID", "dol_vehicle_id");
    ("Vehicle Location", "geocoded_column");
    ("Electric Utility", "electric_utility");
    ("2020 Census Tract", "_2020_census_tract")
  ]%string.

(** [df.rename(columns={k: v for k, v in column_map.items() if k in df.columns})] *)
Definition rename_columns (df : DataFrame) : DataFrame :=
  rename df (filter (fun kv => kv.1 ∈ columns df) column_map).

(* ===================================================================== *)
(** ** Reference instances and sample frames *)

(** A frame with a city column and neither make nor model. *)
Definition frame_without_make : DataFrame :=
  mkDF ["city"%string] [[CStr (str "Seattle")]; [CStr (str "Tacoma")]].

(** A sort that meets what is assumed of [sort_values]: the merge sort of
    stdpp on the comparison read as a relation. *)
Definition merge_sort_by (A : Type) (leb : A -> A -> bool) (l : list A) : list A :=
  @merge_sort A (fun x y => leb x y = true) (fun x y => bool_eq_dec (leb x y) true) l.

(** A sampler that meets what is assumed of the seeded draw: the first
    [size] positions.  A seed is its own starting state. *)
Definition first_choice (g : N) (pop size : nat) : list nat * N := (seq 0 size, g).
Definition seed_of (seed : Z) : N := Z.to_N seed.

(** One row whose point text has NaN as its first token. *)
Definition frame_nan_token : DataFrame :=
  mkDF ["Vehicle Location"%string] [[CStr (str "POINT (nan 47.61)")]].



(** 6000 rows with both coordinates. *)
Definition frame_6000 : DataFrame :=
  mkDF ["longitude"; "latitude"]%string
    (replicate (Z.to_nat 6000) [CFloat (S754_finite true 8608208475253637 (-46));
                     CFloat (S754_finite false 6700511820597166 (-47))]).


(** 30 rows, each with a city of its own, and one row without a city. *)
Definition frame_30_cities : DataFrame :=
  mkDF ["city"%string]
    ([CNone] :: ((fun i => [CStr (str "City " ++ [ascii_of_nat (65 + i)])]) <$> seq 0 30)).

(** A raw frame with a price that is not a number and a point text. *)
Definition frame_raw : DataFrame :=
  mkDF ["Make"; "Base MSRP"; "Vehicle Location"]%string
    [[CStr (str "Tesla"); CStr (str "N/A"); CStr (str "POINT (-122.33 47.61)")];
     [CStr (str "Nissan"); CStr (str "31000"); CNone]].

(** A raw frame in which the source label of the price and its canonical
    label both occur. *)
Definition frame_colliding : DataFrame :=
  mkDF ["Base MSRP"; "base_msrp"]%string [[CStr (str "N/A"); CStr (str "31000")]].


(** Four rows with a model year and a type, one without a year and one
    without a type. *)
Definition frame_years : DataFrame :=
  mkDF ["model_year"; "ev_type"]%string
    [[CInt 2020; CStr (str "BEV")]; [CInt 2019; CStr (str "PHEV")];
     [CInt 2020; CNone]; [CNone; CStr (str "BEV")]].

(** Three rows of makes and models, each pair once. *)
Definition frame_models : DataFrame :=
  mkDF ["make"; "model"]%string
    [[CStr (str "Tesla"); CStr (str "Model 3")];
     [CStr (str "Tesla"); CStr (str "Model Y")];
     [CStr (str "Nissan"); CStr (str "Leaf")]].
Section Report.

(** *** What the libraries leave open *)

(** The reader [pd.to_numeric] applies to a text cell: the number it
    denotes, or [None] when pandas cannot parse it. *)
Variable numeric_of_str : pystr -> option float.

(** The sort behind [sort_values], [value_counts] and [groupby]: some
    permutation that is ordered by the comparison; the place of ties is
    not fixed. *)
Variable sort_by : forall A : Type, (A -> A -> bool) -> list A -> list A.
Arguments sort_by {A} _ _.

Hypothesis sort_by_perm : forall A (leb : A -> A -> bool) l, sort_by leb l ≡ₚ l.

Hypothesis sort_by_sorted : forall A (leb : A -> A -> bool) l,
  (forall x y, leb x y = true \/ leb y x = true) ->
  (forall x y z, leb x y = true -> leb y z = true -> leb x z = true) ->
  StronglySorted (fun x y => leb x y = true) (sort_by leb l).

(** [RandomState.choice(pop, size, replace=False)] from a generator
    state: the indices drawn and the state after; [seed_state] is the
    state [RandomState(seed)] starts in. *)
Variable choice : N -> nat -> nat -> list nat * N.
Variable seed_state : Z -> N.

Hypothesis choice_length : forall g pop size,
  (size <= pop)%nat -> length (choice g pop size).1 = size.
Hypothesis choice_NoDup : forall g pop size,
  (size <= pop)%nat -> NoDup (choice g pop size).1.
Hypothesis choice_bound : forall g pop size,
  (size <= pop)%nat -> Forall (fun i => (i < pop)%nat) (choice g pop size).1.

(** *** pandas *)

(** [pd.to_numeric(s, errors="coerce")] *)
Definition to_numeric_cell (v : cell) : cell :=
  match v with
  | CNone => CFloat nan
  | CStr s =>
      match numeric_of_str s with
      | Some x => CFloat x
      | None => CFloat nan
      end
  | CInt z => CInt z
  | CFloat x => CFloat x
  end.

Definition to_numeric_series (s : list cell) : list cell := to_numeric_cell <$> s.

(** On anything but a column pandas raises a [TypeError], whatever
    [errors] is. *)
Definition to_numeric (arg : selection) : result (list cell) :=
  match arg with
  | Series s => Ok (to_numeric_series s)
  | Frame _ => Raise TypeError
  end.

(** [s.value_counts()]: missing values are left out, the most frequent
    key comes first. *)
Definition value_counts (s : list cell) : list (cell * Z) :=
  sort_by (fun a b => b.2 <=? a.2) (count_keys cell_eqb (List.filter notna s)).

(** [s.value_counts().reset_index()] for a column called [name]. *)
Definition reset_index (name : string) (s : list (cell * Z)) : DataFrame :=
  mkDF [name; "count"%string] ((fun kn => [kn.1; CInt kn.2]) <$> s).

(** [df.groupby(by).size().reset_index(name=name)]: rows with a missing
    key are left out, the groups come in key order. *)
Definition groupby_size (df : DataFrame) (by_ : list string) (name : string)
  : result DataFrame :=
  idx ← mapM (locate df) by_;
  let keys := (fun r => cell_at r <$> idx) <$> rows df in
  let groups := sort_by (fun a b => cells_leb a.1 b.1)
                  (count_keys cells_eqb (List.filter (forallb notna) keys)) in
  Ok (mkDF (by_ ++ [name]) ((fun kn => kn.1 ++ [CInt kn.2]) <$> groups)).

(** [df.sort_values(by, ascending=ascending)] *)
Definition sort_values (df : DataFrame) (by_ : string) (ascending : bool)
  : result DataFrame :=
  i ← locate df by_;
  if orderable ((fun r => cell_at r i) <$> rows df) then
    Ok (mkDF (columns df)
          (sort_by (fun r1 r2 =>
                      if ascending then cell_leb (cell_at r1 i) (cell_at r2 i)
                      else cell_leb (cell_at r2 i) (cell_at r1 i))
             (rows df)))
  else Raise TypeError.

(** [df.sample(n=n, random_state=random_state)]: with a seed the draw
    comes from a fresh generator, without one from the process-wide
    generator, which moves on. *)
Definition sample (df : DataFrame) (n : nat) (random_state : option Z) : M DataFrame :=
  fun w =>
    if bool_decide (n <= len df)%nat then
      match random_state with
      | Some seed =>
          let idx := (choice (seed_state seed) (len df) n).1 in
          (Ok (mkDF (columns df) (omap (fun i => rows df !! i) idx)), w)
      | None =>
          let '(idx, g) := choice (np_random w) (len df) n in
          (Ok (mkDF (columns df) (omap (fun i => rows df !! i) idx)),
           mkWorld (out w) g)
      end
    else (Raise ValueError, w).

(** [px.scatter_mapbox(data_frame, lat=, lon=, hover_name=, hover_data=,
    title=)]: plotly.express raises a [ValueError] when an argument names
    a column the frame does not have. *)
Definition scatter_mapbox (data_frame : DataFrame) (lat lon : string)
    (hover_name : option string) (hover_data : list string) (ttl : string)
  : result figure :=
  if forallb (has_column data_frame) ([lat; lon] ++ option_list hover_name ++ hover_data)
  then Ok (mkFig ScatterMapbox data_frame ttl)
  else Raise ValueError.

(** [a + b] where one operand is a string: concatenation, or the
    [TypeError] of adding a string and something else. *)
Definition add_str (a b : cell) : result cell :=
  match a, b with
  | CStr s, CStr t => Ok (CStr (s ++ t))
  | _, _ => Raise TypeError
  end.

(** *** Data preparation *)

(** The loop [for col in cols: if col in df.columns: df[col] = ...]. *)
Fixpoint coerce_columns (cols : list string) (df : DataFrame) : result DataFrame :=
  match cols with
  | [] => Ok df
  | col :: cols' =>
      df ← (if has_column df col
            then s ← select df col; v ← to_numeric s; Ok (setitem df col v)
            else Ok df);
      coerce_columns cols' df
  end.

(** [load_and_prepare_data], from the frame [get_df("electric_vehicles")]
    returned.  When several columns carry the label of the point text,
    [apply] works column by column and the assignment of its result to
    [df["longitude"]] raises a [ValueError]. *)
Definition load_and_prepare_data (df : DataFrame) : result DataFrame :=
  let df := rename_columns df in
  df ← coerce_columns ["electric_range"; "base_msrp"; "model_year"]%string df;
  if has_column df "geocoded_column" then
    geo ← select df "geocoded_column";
    match geo with
    | Series geo =>
        coords ← mapM parse_point geo;
        let df := setitem df "longitude" ((fun x => CFloat x.1) <$> coords) in
        let df := setitem df "latitude" ((fun x => CFloat x.2) <$> coords) in
        Ok df
    | Frame _ => Raise ValueError
    end
  else Ok df.

(** *** Visualisation *)

(** The caption of [plot_ev_map]. *)
Definition caption_ev_map : string :=
  "**How to read:** This map shows the locations of registered EVs across Washington State. Each point represents a registered EV." +:+ nl +:+
  "**Insight:** Clusters reveal urban hotspots and geographic trends in EV adoption." +:+ nl +:+
  abbr_explain ["EV"; "WA"]%string.

Definition plot_ev_map (df : DataFrame) : M unit :=
  if has_column df "longitude" && has_column df "latitude" then
    map_df ← lift (dropna df ["longitude"; "latitude"]%string);
    if negb (empty map_df) then
      text "## Washington State EV Registration Map";;
      text caption_ev_map;;
      sampled ← sample map_df (Nat.min 5000 (len map_df)) (Some 42);
      fig_map ← lift (scatter_mapbox sampled "latitude" "longitude"
                        (if has_column map_df "city" then Some "city"%string else None)
                        ["make"; "model"; "model_year"; "county"]%string
                        "EV Registrations Across Washington State");
      plotly fig_map
    else text "No valid geolocation data available for mapping EV registrations."
  else text "Geocoded location data not available for mapping.".

(** The caption of [plot_top_makes_models]. *)
Definition caption_top_makes_models : string :=
  "**How to read:** This bar chart shows the most common electric vehicle (EV) makes and models registered in Washington (WA)." +:+ nl +:+
  "**Insight:** It reveals which brands and models are most popular among EV owners." +:+ nl +:+
  abbr_explain ["EV"; "WA"]%string.

Definition plot_top_makes_models (df : DataFrame) : M unit :=
  top_models ← lift (g ← groupby_size df ["make"; "model"]%string "count";
                     s ← sort_values g "count" false;
                     Ok (head s 15));
  if negb (empty top_models) then
    text "## Top Makes and Models";;
    text caption_top_makes_models;;
    make_model ← lift (make ← getitem top_models "make";
                       model ← getitem top_models "model";
                       make_ ← mapM (fun a => add_str a (CStr (str " "))) make;
                       mapM (fun ab => add_str ab.1 ab.2) (zip make_ model));
    let top_models := setitem top_models "make_model" make_model in
    plotly (mkFig Bar top_models "Top 15 EV Makes and Models")
  else text "No data available for top makes and models.".

(** The caption of [plot_bev_phev_share]. *)
Definition caption_bev_phev_share : string :=
  "**How to read:** This pie chart shows the proportion of Battery Electric Vehicles (BEVs) vs Plug-in Hybrid Electric Vehicles (PHEVs) in the state." +:+ nl +:+
  "**Insight:** It highlights the market split between fully electric and plug-in hybrid vehicles." +:+ nl +:+
  abbr_explain ["BEV"; "PHEV"; "EV"]%string.

Definition plot_bev_phev_share (df : DataFrame) : M unit :=
  if has_column df "ev_type" then
    ev_type_counts ← lift (s ← getitem df "ev_type";
                           set_columns (reset_index "ev_type" (value_counts s))
                             ["ev_type"; "count"]%string);
    if negb (empty ev_type_counts) then
      text "## BEV vs PHEV Share";;
      text caption_bev_phev_share;;
      plotly (mkFig Pie ev_type_counts "BEV vs PHEV Share")
    else text "No data available for BEV vs PHEV share."
  else text "EV type data not available.".

(** The caption of [plot_electric_range_distribution]. *)
Definition caption_electric_range_distribution : string :=
  "**How to read:** This histogram shows how far EVs can travel on electric power alone." +:+ nl +:+
  "**Insight:** It reveals the most common electric ranges and the spread of EV capabilities." +:+ nl +:+
  abbr_explain ["EV"]%string.

Definition plot_electric_range_distribution (df : DataFrame) : M unit :=
  if has_column df "electric_range" then
    text "## Electric Range Distribution";;
    text caption_electric_range_distribution;;
    range_df ← lift (dropna df ["electric_range"]%string);
    if negb (empty range_df) then
      plotly (mkFig Histogram range_df "Distribution of Electric Range (miles)")
    else text "No data available for electric range distribution."
  else text "Electric range data not available.".

(** The caption of [plot_top_cities]. *)
Definition caption_top_cities : string :=
  "**How to read:** This bar chart shows which cities have the most registered EVs." +:+ nl +:+
  "**Insight:** It highlights geographic hotspots for EV adoption." +:+ nl +:+
  abbr_explain ["EV"]%string.

Definition plot_top_cities (df : DataFrame) : M unit :=
  if has_column df "city" then
    top_cities ← lift (s ← getitem df "city";
                       set_columns (reset_index "city" (value_counts s))
                         ["city"; "count"]%string);
    if negb (empty top_cities) then
      text "## Top Cities for EVs";;
      text caption_top_cities;;
      plotly (mkFig Bar (head top_cities 15) "Top 15 Cities for EVs")
    else text "No data available for top cities."
  else text "City data not available.".

(** The caption of [plot_top_counties]. *)
Definition caption_top_counties : string :=
  "**How to read:** This bar chart shows which counties have the most registered EVs." +:+ nl +:+
  "**Insight:** It highlights geographic hotspots for EV adoption." +:+ nl +:+
  abbr_explain ["EV"]%string.

Definition plot_top_counties (df : DataFrame) : M unit :=
  if has_column df "county" then
    top_counties ← lift (s ← getitem df "county";
                         set_columns (reset_index "county" (value_counts s))
                           ["county"; "count"]%string);
    if negb (empty top_counties) then
      text "## Top Counties for EVs";;
      text caption_top_counties;;
      plotly (mkFig Bar (head top_counties 15) "Top 15 Counties for EVs")
    else text "No data available for top counties."
  else text "County data not available.".

(** The caption of [plot_msrp_by_ev_type]. *)
Definition caption_msrp_by_ev_type : string :=
  "**How to read:** This boxplot shows the distribution of Manufacturer's Suggested Retail Price (MSRP) for BEVs and PHEVs." +:+ nl +:+
  "**Insight:** It reveals price differences between fully electric and plug-in hybrid vehicles." +:+ nl +:+
  abbr_explain ["MSRP"; "BEV"; "PHEV"]%string.

Definition plot_msrp_by_ev_type (df : DataFrame) : M unit :=
  if has_column df "base_msrp" && has_column df "ev_type" then
    text "## MSRP by EV Type";;
    text caption_msrp_by_ev_type;;
    msrp_df ← lift (dropna df ["base_msrp"; "ev_type"]%string);
    if negb (empty msrp_df) then
      plotly (mkFig Box msrp_df "MSRP by EV Type")
    else text "No MSRP data available for BEV or PHEV vehicles."
  else text "MSRP or EV type data not available.".

(** The caption of [plot_yearly_trend]. *)
Definition caption_yearly_trend : string :=
  "**How to read:** This line chart shows how many EVs were registered each year." +:+ nl +:+
  "**Insight:** It reveals growth trends in EV adoption over time." +:+ nl +:+
  abbr_explain ["EV"]%string.

Definition plot_yearly_trend (df : DataFrame) : M unit :=
  if has_column df "model_year" then
    text "## Yearly Trend of EV Registrations";;
    text caption_yearly_trend;;
    year_trend ← lift (s ← getitem df "model_year";
                       yt ← set_columns (reset_index "model_year" (value_counts s))
                              ["model_year"; "count"]%string;
                       sort_values yt "model_year" true);
    if negb (empty year_trend) then
      plotly (mkFig Line year_trend "EV Registrations by Model Year")
    else text "No registration data available by model year."
  else text "Model year data not available.".

(** The script body after the load: the title, then the eight builders. *)
Definition report (df : DataFrame) : M unit :=
  text "# Washington State Electric Vehicle Population Explorer";;
  plot_ev_map df;;
  plot_top_makes_models df;;
  plot_bev_phev_share df;;
  plot_electric_range_distribution df;;
  plot_top_cities df;;
  plot_top_counties df;;
  plot_msrp_by_ev_type df;;
  plot_yearly_trend df.

(** *** Vocabulary of the specification *)

(** The text between the tag [POINT (] and the closing parenthesis. *)
Definition inner (t : pystr) : pystr := slice t 7 (-1).

(** A cell the decoder has to reject: a missing marker, a value that is
    not a string, or a string (surrounding whitespace apart) with a wrong
    prefix or suffix, a token count other than two, or a token that is
    not a float. *)
Definition malformed (val : cell) : Prop :=
  isna val = true
  \/ (forall s, val <> CStr s)
  \/ exists s, val = CStr s /\
       (startswith (strip s) (str "POINT (") = false
        \/ endswith (strip s) (str ")") = false
        \/ length (split (inner (strip s))) <> 2%nat
        \/ exists tok, tok ∈ split (inner (strip s)) /\ float_of_str tok = None).

(** The columns the normaliser coerces to numbers. *)
Definition numeric_columns : list string :=
  ["electric_range"; "base_msrp"; "model_year"]%string.

(** A zero, as an integer or as a float of either sign. *)
Definition is_zero (v : cell) : Prop :=
  v = CInt 0 \/ exists s, v = CFloat (S754_zero s).

(** What the specification asks of the cell [v'] that numeric coercion
    puts in the place of [v]: a number stays what it is, a text that
    reads as a number becomes that number, anything else becomes a
    missing value, which is not a zero. *)
Definition coerced (v v' : cell) : Prop :=
  match v with
  | CInt _ | CFloat _ => v' = v
  | CStr s =>
      match numeric_of_str s with
      | Some x => v' = CFloat x
      | None => isna v' = true /\ ~ is_zero v'
      end
  | CNone => isna v' = true /\ ~ is_zero v'
  end.

(** A point text of which exactly one of the two tokens reads as NaN. *)
Definition one_nan_token (g : cell) : Prop :=
  exists s a b x y,
    g = CStr s /\ split (inner (strip s)) = [a; b]
    /\ float_of_str a = Some x /\ float_of_str b = Some y
    /\ is_nan x <> is_nan y.

(** The world after the blocks [evs] have been rendered. *)
Definition emit (w : world) (evs : list event) : world :=
  mkWorld (out w ++ evs) (np_random w).

(** The cell of row [r] under the label [c]. *)
Definition row_cell (df : DataFrame) (c : string) (r : list cell) : cell :=
  match index_of c (columns df) with
  | Some i => cell_at r i
  | None => CNone
  end.

(** The working set of a builder: the rows in which none of the
    required columns is missing. *)
Definition complete_rows (df : DataFrame) (required : list string) : list (list cell) :=
  List.filter (fun r => forallb (fun c => notna (row_cell df c r)) required) (rows df).


(** The integers in the column [count] of a frame. *)
Definition counts (df : DataFrame) : list Z :=
  match getitem df "count" with
  | Ok s => int_of_cell <$> s
  | Raise _ => []
  end.

(** The frame [df[c].value_counts().reset_index()] with its two labels
    set. *)
Definition vc_table (c : string) (s : list cell) : DataFrame :=
  mkDF [c; "count"%string] ((fun kn => [kn.1; CInt kn.2]) <$> value_counts s).

(** The columns the map names in [hover_data]. *)
Definition hover_columns : list string :=
  ["make"; "model"; "model_year"; "county"]%string.

(** The rows [df.sample] draws under the fixed seed. *)
Definition sampled (seed : Z) (n : nat) (df : DataFrame) : DataFrame :=
  mkDF (columns df)
    (omap (fun i => rows df !! i) (choice (seed_state seed) (len df) n).1).

(** The key of a row for the group-by on make and model. *)
Definition make_model_key (df : DataFrame) (r : list cell) : list cell :=
  [row_cell df "make" r; row_cell df "model" r].

(** The frame [df.groupby(["make", "model"]).size().reset_index(name="count")]. *)
Definition grouped (df : DataFrame) : DataFrame :=
  mkDF ["make"; "model"; "count"]%string
    ((fun kn => kn.1 ++ [CInt kn.2]) <$>
       sort_by (fun a b => cells_leb a.1 b.1)
         (count_keys cells_eqb
            (make_model_key df <$> complete_rows df ["make"; "model"]%string))).

(** The comparison [sort_values] sorts the rows by, on the column at
    position [i]. *)
Definition by_column (i : nat) (ascending : bool) (r1 r2 : list cell) : bool :=
  if ascending then cell_leb (cell_at r1 i) (cell_at r2 i)
  else cell_leb (cell_at r2 i) (cell_at r1 i).

(** [top_models] as the builder computes it. *)
Definition top_models_of (df : DataFrame) : DataFrame :=
  head (mkDF (columns (grouped df)) (sort_by (by_column 2 false) (rows (grouped df)))) 15.

(** The column [top_models["make"] + ' ' + top_models["model"]]. *)
Definition make_model_of (top_models : DataFrame) : result (list cell) :=
  make ← getitem top_models "make";
  model ← getitem top_models "model";
  make_ ← mapM (fun a => add_str a (CStr (str " "))) make;
  mapM (fun ab => add_str ab.1 ab.2) (zip make_ model).

(** [year_trend] as the builder computes it, when the years can be
    ordered. *)
Definition year_trend_of (df : DataFrame) : DataFrame :=
  let t := vc_table "model_year" (row_cell df "model_year" <$> rows df) in
  mkDF (columns t) (sort_by (by_column 0 true) (rows t)).

(** The frame without the rows in which the column [c] is missing. *)
Definition drop_missing (df : DataFrame) (c : string) : DataFrame :=
  mkDF (columns df) (complete_rows df [c]).

(** The charts a builder renders when it starts from a blank page. *)
Definition charts_of (b : M unit) (g : N) : list figure :=
  charts (out (b (mkWorld [] g)).2).


(** The one format the specification calls bit-exact: the tag, one space
    between two tokens free of whitespace, the closing parenthesis. *)
Definition exact_format (s : pystr) : Prop :=
  exists a b,
    Forall (fun c => is_space c = false) a /\ Forall (fun c => is_space c = false) b
    /\ s = str "POINT (" ++ a ++ str " " ++ b ++ str ")".

(** Longitude and latitude missing together or present together, row by
    row. *)
Definition jointly_missing (df : DataFrame) : Prop :=
  forall lon lat,
    getitem df "longitude" = Ok lon -> getitem df "latitude" = Ok lat ->
    Forall2 (fun x y => isna x = isna y) lon lat.


(** A key of the glossary. *)
Definition known (k : string) : bool := bool_decide (is_Some (abbr !! k)).

(** The line of [abbr_explain] for the key [k], if the glossary has it. *)
Definition glossary_line (k : string) : option string :=
  (fun v => "**" +:+ k +:+ "**: " +:+ v) <$> abbr !! k.

(** A computation that only adds rendered blocks to the world: what was
    rendered stays, and the process-wide generator is where it was. *)
Definition appends {A} (m : M A) : Prop :=
  forall w, exists evs, (m w).2 = emit w evs.

(** The sum of a list of counts. *)
Definition total (l : list Z) : Z := foldr Z.add 0 l.


(* =================================================================== *)
(** ** Properties *)

(** *** Strings *)

Definition blank (w : pystr) : Prop := Forall (fun c => is_space c = true) w.
Definition solid (t : pystr) : Prop := Forall (fun c => is_space c = false) t.

Lemma lstrip_blank w s : blank w -> lstrip (w ++ s) = lstrip s.
Proof.
  induction 1 as [|c w Hc _ IH]; simpl; [done|]. by rewrite Hc.
Qed.

Lemma lstrip_solid c s : is_space c = false -> lstrip (c :: s) = c :: s.
Proof. intros Hc. simpl. by rewrite Hc. Qed.

Lemma blank_rev w : blank w -> blank (rev w).
Proof. apply List.Forall_rev. Qed.

Lemma strip_core w0 w4 c body d :
  blank w0 -> blank w4 -> is_space c = false -> is_space d = false ->
  strip (w0 ++ c :: body ++ d :: w4) = c :: body ++ [d].
Proof.
  intros H0 H4 Hc Hd. unfold strip, rstrip.
  rewrite lstrip_blank, lstrip_solid by done.
  replace (rev (c :: body ++ d :: w4)) with (rev w4 ++ d :: rev (c :: body)).
  2:{ simpl. rewrite rev_app_distr. simpl. by rewrite <- !app_assoc. }
  rewrite lstrip_blank by by apply blank_rev.
  rewrite lstrip_solid by done.
  simpl. by rewrite rev_app_distr, rev_involutive.
Qed.

Lemma startswith_app p s : startswith (p ++ s) p = true.
Proof.
  induction p as [|a p IH]; simpl; [done|].
  by rewrite Ascii.eqb_refl, IH.
Qed.

Lemma startswith_inv s p : startswith s p = true -> exists t, s = p ++ t.
Proof.
  revert s. induction p as [|a p IH]; intros s H; simpl in *.
  - by exists s.
  - destruct s as [|b s]; [done|].
    apply andb_true_iff in H as [Hab H].
    apply Ascii.eqb_eq in Hab as ->.
    destruct (IH _ H) as [t ->]. by exists t.
Qed.

Lemma endswith_app s p : endswith (s ++ p) p = true.
Proof. unfold endswith. rewrite rev_app_distr. apply startswith_app. Qed.

Lemma lstrip_suffix s : exists w, s = w ++ lstrip s.
Proof.
  induction s as [|c s [w IH]]; simpl.
  - by exists [].
  - destruct (is_space c).
    + exists (c :: w). simpl. by f_equal.
    + by exists [].
Qed.

Lemma rstrip_prefix s : exists w, s = rstrip s ++ w.
Proof.
  unfold rstrip. destruct (lstrip_suffix (rev s)) as [w Hw].
  exists (rev w).
  rewrite <- rev_app_distr, <- Hw. by rewrite rev_involutive.
Qed.

Lemma slice_inner p x d :
  length p = 7%nat -> slice (p ++ x ++ [d]) 7 (-1) = x.
Proof.
  intros Hp. unfold slice, slice_bound.
  rewrite !length_app, Hp. simpl length.
  replace (7 <? 0) with false by done.
  replace (-1 <? 0) with true by done.
  replace (Z.to_nat (Z.min (Z.of_nat (7 + (length x + 1))) (Z.max 0 7))) with 7%nat by lia.
  replace (Z.to_nat (Z.min (Z.of_nat (7 + (length x + 1)))
             (Z.max 0 (-1 + Z.of_nat (7 + (length x + 1))))) - 7)%nat
    with (length x) by lia.
  rewrite drop_app_length' by done.
  by rewrite take_app_length.
Qed.

Lemma split_go_solid t cur s :
  solid t -> split_go cur (t ++ s) = split_go (rev t ++ cur) s.
Proof.
  intros Ht. revert cur. induction Ht as [|c t Hc _ IH]; intros cur; simpl; [done|].
  rewrite Hc, IH. by rewrite <- app_assoc.
Qed.

Lemma split_go_blank w s : blank w -> split_go [] (w ++ s) = split_go [] s.
Proof. induction 1 as [|c w Hc _ IH]; simpl; [done|]. by rewrite Hc. Qed.

Lemma split_go_flush c w cur s :
  is_space c = true -> blank w -> cur <> [] ->
  split_go cur (c :: w ++ s) = rev cur :: split_go [] s.
Proof.
  intros Hc Hw Hcur. simpl. rewrite Hc.
  destruct cur; [done|]. by rewrite split_go_blank.
Qed.

Lemma split_two w1 a w2 b w3 :
  blank w1 -> blank w2 -> blank w3 -> w2 <> [] ->
  solid a -> solid b -> a <> [] -> b <> [] ->
  split (w1 ++ a ++ w2 ++ b ++ w3) = [a; b].
Proof.
  intros H1 H2 H3 Hw2 Ha Hb Hna Hnb. unfold split.
  rewrite split_go_blank, split_go_solid by done.
  rewrite app_nil_r.
  destruct H2 as [|c w2 Hc H2]; [done|]. simpl app.
  rewrite split_go_flush; [|done|done|by destruct a using rev_ind; [|rewrite rev_app_distr]].
  rewrite rev_involutive. f_equal.
  rewrite split_go_solid, app_nil_r by done.
  assert (rev b <> []) as Hrb by (destruct b using rev_ind; [done|by rewrite rev_app_distr]).
  destruct H3 as [|c3 w3 Hc3 H3].
  - simpl. destruct (rev b) eqn:E; [done|]. by rewrite <- E, rev_involutive.
  - replace (c3 :: w3) with (c3 :: w3 ++ []) by by rewrite app_nil_r.
    rewrite split_go_flush by done. by rewrite rev_involutive.
Qed.

(** *** The point decoder *)

Lemma parse_point_total val : exists p, parse_point val = Ok p.
Proof.
  unfold parse_point, try_except.
  destruct (parse_point_body val); eauto.
Qed.

Lemma parse_point_str s :
  parse_point (CStr s) =
    if startswith (strip s) (str "POINT (") && endswith (strip s) (str ")") then
      match split (inner (strip s)) with
      | [a; b] =>
          match float_of_str a, float_of_str b with
          | Some x, Some y => Ok (x, y)
          | _, _ => Ok (nan, nan)
          end
      | _ => Ok (nan, nan)
      end
    else Ok (nan, nan).
Proof.
  unfold parse_point, parse_point_body, inner. simpl isna. cbv iota.
  unfold mbind at 1, result_bind.
  destruct (startswith _ _ && endswith _ _); [|done].
  destruct (split _) as [|a [|b [|c l]]]; try done.
  simpl. destruct (float_of_str a); simpl; [|done].
  by destruct (float_of_str b).
Qed.

(** C2.  Whatever the cell, the decoder returns and raises nothing; on a
    missing marker, on a value that is not a string, and on a string
    with a wrong prefix or suffix, a token count other than two or a
    token that is not a float, it returns the pair (NaN, NaN). *)
Theorem parse_point_malformed_sentinel :
  (forall val, exists p, parse_point val = Ok p) /\
  (forall val, malformed val -> parse_point val = Ok (nan, nan)).
Proof.
  split; [apply parse_point_total|].
  intros val [Hna | [Hns | (s & -> & Hs)]].
  - unfold parse_point, parse_point_body. by rewrite Hna.
  - destruct val as [|s|z|x]; try done.
    + by destruct (Hns s).
    + unfold parse_point, parse_point_body. simpl. by destruct (is_nan x).
  - rewrite parse_point_str.
    destruct Hs as [-> | [H | [H | (tok & Hin & Hf)]]]; [done| | |].
    + rewrite H. by rewrite andb_false_r.
    + destruct (_ && _); [|done].
      by destruct (split _) as [|a [|b [|c l]]].
    + destruct (_ && _); [|done].
      destruct (split _) as [|a [|b [|c l]]]; try done.
      apply elem_of_cons in Hin as [-> | Hin].
      * by rewrite Hf.
      * apply list_elem_of_singleton in Hin as ->. rewrite Hf.
        by destruct (float_of_str a).
Qed.

Lemma float_of_str_nonempty a x : float_of_str a = Some x -> a <> [].
Proof. by intros H ->. Qed.

Lemma tag_rejected s :
  startswith (lstrip s) (str "POINT (") = false ->
  parse_point (CStr s) = Ok (nan, nan).
Proof.
  intros Hs. rewrite parse_point_str.
  destruct (startswith (strip s) _) eqn:E; [|done].
  apply startswith_inv in E as [t Ht].
  unfold strip in Ht.
  destruct (rstrip_prefix (lstrip s)) as [w Hw].
  rewrite Ht, <- app_assoc in Hw.
  rewrite Hw, startswith_app in Hs. done.
Qed.

(** Between POINT and the parenthesis the tag has one space character:
    with any other whitespace there, the text does not start with the
    tag. *)
Lemma tag_spacing w rest :
  blank w -> w <> str " " ->
  startswith (str "POINT" ++ w ++ str "(" ++ rest) (str "POINT (") = false.
Proof.
  intros Hw Hne.
  destruct (startswith _ _) eqn:E; [|done].
  apply startswith_inv in E as [t Ht].
  change (str "POINT" ++ w ++ str "(" ++ rest)
    with (str "POINT" ++ (w ++ str "(" ++ rest)) in Ht.
  change (str "POINT (" ++ t) with (str "POINT" ++ (str " (" ++ t)) in Ht.
  apply app_inv_head in Ht.
  destruct Hw as [|c w Hc Hw]; [by inversion Ht|].
  injection Ht as -> Ht.
  destruct Hw as [|c' w Hc' Hw]; [done|].
  injection Ht as -> _. by vm_compute in Hc'.
Qed.

(** C3, as the code has it.  The decoder accepts the tag [POINT (], two
    float tokens and [)], where whitespace of any length may surround the
    text, follow the opening parenthesis, separate the two tokens and
    precede the closing parenthesis; it then returns the two floats the
    tokens denote, so that POINT (-122.33 47.61) gives the binary64
    values of -122.33 and 47.61.  When the whitespace between POINT and
    the parenthesis is anything but one space character (none, two or
    more, a tab), the result is (NaN, NaN), whatever follows and whatever
    whitespace precedes. *)
Theorem parse_point_accepts :
  (forall w0 w1 w2 w3 w4 a b x y,
      blank w0 -> blank w1 -> blank w2 -> w2 <> [] -> blank w3 -> blank w4 ->
      solid a -> solid b ->
      float_of_str a = Some x -> float_of_str b = Some y ->
      parse_point
        (CStr (w0 ++ str "POINT (" ++ (w1 ++ a ++ w2 ++ b ++ w3) ++ str ")" ++ w4))
      = Ok (x, y))
  /\ parse_point (CStr (str "POINT (-122.33 47.61)"))
     = Ok (S754_finite true 8608208475253637 (-46),
           S754_finite false 6700511820597166 (-47))
  /\ (forall w0 w rest,
        blank w0 -> blank w -> w <> str " " ->
        parse_point (CStr (w0 ++ str "POINT" ++ w ++ str "(" ++ rest)) = Ok (nan, nan)).
Proof.
  split; [|split].
  - intros w0 w1 w2 w3 w4 a b x y H0 H1 H2 Hw2 H3 H4 Ha Hb Hx Hy.
    rewrite parse_point_str.
    set (mid := w1 ++ a ++ w2 ++ b ++ w3).
    assert (strip (w0 ++ str "POINT (" ++ mid ++ str ")" ++ w4)
            = str "POINT (" ++ mid ++ str ")") as ->.
    { change (str "POINT (" ++ mid ++ str ")" ++ w4)
        with ("P"%char :: (str "OINT (" ++ mid) ++ ")"%char :: w4).
      rewrite strip_core by done. by rewrite <- app_assoc. }
    rewrite startswith_app.
    rewrite (app_assoc (str "POINT (")), endswith_app.
    rewrite <- app_assoc. unfold inner.
    change (str ")") with [")"%char].
    rewrite slice_inner by done.
    unfold mid. rewrite split_two; eauto using float_of_str_nonempty.
    by rewrite Hx, Hy.
  - by vm_compute.
  - intros w0 w rest H0 Hw Hne. apply tag_rejected.
    rewrite lstrip_blank by done.
    change (str "POINT" ++ w ++ str "(" ++ rest)
      with ("P"%char :: (str "OINT" ++ w ++ str "(" ++ rest)).
    rewrite lstrip_solid by done. by apply tag_spacing.
Qed.

(** *** Column labels *)

Opaque column_map.

Lemma column_map_targets_fresh k v :
  column_map !! k = Some v -> column_map !! v = None.
Proof.
  revert k v.
  assert (map_Forall (fun _ v => column_map !! v = None) column_map) as H.
  { apply (bool_decide_unpack _). by vm_compute. }
  exact H.
Qed.

Definition canonical (c : string) : string := default c (column_map !! c).

Lemma rename_columns_labels df :
  columns (rename_columns df) = canonical <$> columns df.
Proof.
  unfold rename_columns, rename. simpl.
  apply list_fmap_ext. intros i c Hc. unfold canonical. f_equal.
  destruct (column_map !! c) as [v|] eqn:E.
  - apply map_lookup_filter_Some. split; [done|]. simpl.
    by eapply list_elem_of_lookup_2.
  - apply map_lookup_filter_None. by left.
Qed.

Lemma canonical_idemp c : canonical (canonical c) = canonical c.
Proof.
  unfold canonical. destruct (column_map !! c) as [v|] eqn:E; simpl.
  - by rewrite (column_map_targets_fresh _ _ E).
  - by rewrite E.
Qed.

Lemma frame_eq (a b : DataFrame) :
  columns a = columns b -> rows a = rows b -> a = b.
Proof. destruct a, b. simpl. by intros -> ->. Qed.

(** C9.  Renaming twice gives the frame that renaming once gives: the
    mapping is keyed by the exact source labels, and no canonical label
    is a source label. *)
Theorem rename_columns_idempotent df :
  rename_columns (rename_columns df) = rename_columns df
  /\ columns (rename_columns (rename_columns df)) = columns (rename_columns df).
Proof.
  assert (columns (rename_columns (rename_columns df)) = columns (rename_columns df)) as H.
  { rewrite !rename_columns_labels, <- list_fmap_compose.
    apply list_fmap_ext. intros _ c _. apply canonical_idemp. }
  split; [|done].
  by apply frame_eq.
Qed.

(** *** Reading and writing a column *)

Lemma index_of_Some c labels i :
  index_of c labels = Some i -> labels !! i = Some c.
Proof.
  revert i. induction labels as [|l labels IH]; intros i; simpl; [done|].
  destruct (String.eqb l c) eqn:E.
  - intros [= <-]. apply String.eqb_eq in E. by subst.
  - destruct (index_of c labels); simpl; [|done].
    intros [= <-]. by apply IH.
Qed.

Lemma index_of_None c labels : index_of c labels = None <-> c ∉ labels.
Proof.
  induction labels as [|l labels IH]; simpl.
  - split; [|done]. intros _. apply not_elem_of_nil.
  - rewrite not_elem_of_cons. destruct (String.eqb l c) eqn:E.
    + apply String.eqb_eq in E. split; [done|]. by intros [? _].
    + apply String.eqb_neq in E.
      destruct (index_of c labels); simpl.
      * split; [done|]. intros [_ H]. by apply IH in H.
      * split; [|done]. intros _. split; [done|]. by apply IH.
Qed.

Lemma has_column_index df c :
  has_column df c = true <-> exists i, index_of c (columns df) = Some i.
Proof.
  unfold has_column. rewrite bool_decide_eq_true.
  destruct (index_of c (columns df)) as [i|] eqn:E.
  - split; [eauto|]. intros _. apply index_of_Some in E.
    by eapply list_elem_of_lookup_2.
  - apply index_of_None in E. split; [done|]. by intros [? ?].
Qed.

Lemma index_of_app_fresh c labels :
  c ∉ labels -> index_of c (labels ++ [c]) = Some (length labels).
Proof.
  induction labels as [|l labels IH]; simpl.
  - intros _. by rewrite String.eqb_refl.
  - rewrite not_elem_of_cons. intros [Hne Hc].
    apply not_eq_sym, String.eqb_neq in Hne. rewrite Hne.
    by rewrite IH.
Qed.

Lemma index_of_app_other c c' labels :
  c' <> c -> index_of c' (labels ++ [c]) = index_of c' labels.
Proof.
  intros Hne. induction labels as [|l labels IH]; simpl.
  - apply not_eq_sym, String.eqb_neq in Hne. by rewrite Hne.
  - destruct (String.eqb l c'); [done|]. by rewrite IH.
Qed.

Lemma fmap_zip_with_rows {B} (g : list cell -> B) (f : list cell -> cell -> list cell)
      (h : list cell -> cell -> B) rs (vals : list cell) :
  length vals = length rs ->
  Forall (fun r => forall v, g (f r v) = h r v) rs ->
  g <$> zip_with f rs vals = zip_with h rs vals.
Proof.
  revert vals. induction rs as [|r rs IH]; intros [|v vals]; simpl; try done.
  intros [= Hlen] Hall. apply Forall_cons in Hall as [Hr Hall].
  by rewrite Hr, IH.
Qed.

Lemma zip_with_snd_rows {B} rs (vals : list B) :
  length vals = length rs ->
  zip_with (fun (_ : list cell) v => v) rs vals = vals.
Proof.
  revert vals. induction rs as [|r rs IH]; intros [|v vals]; simpl; try done.
  intros [= Hlen]. by rewrite IH.
Qed.

Lemma zip_with_fst_rows {B} rs (vals : list cell) (g : list cell -> B) :
  length vals = length rs ->
  zip_with (fun r (_ : cell) => g r) rs vals = g <$> rs.
Proof.
  revert vals. induction rs as [|r rs IH]; intros [|v vals]; simpl; try done.
  intros [= Hlen]. by rewrite IH.
Qed.

Lemma wf_setitem df c vals : wf_frame df -> wf_frame (setitem df c vals).
Proof.
  unfold wf_frame, setitem. intros Hwf.
  destruct (index_of c (columns df)) as [i|]; simpl.
  - revert vals. induction Hwf as [|r rs Hr _ IH]; intros [|v vals]; simpl; try done.
    constructor; [|apply IH]. by rewrite length_insert.
  - revert vals. induction Hwf as [|r rs Hr _ IH]; intros [|v vals]; simpl; try done.
    constructor; [|apply IH]. rewrite !length_app, Hr. done.
Qed.

Lemma len_setitem df c vals :
  length vals = len df -> len (setitem df c vals) = len df.
Proof.
  unfold len, setitem. intros H.
  destruct (index_of c (columns df)); simpl; rewrite length_zip_with; lia.
Qed.

Lemma columns_setitem df c vals c' :
  c' ∈ columns (setitem df c vals) <-> c' = c \/ c' ∈ columns df.
Proof.
  unfold setitem. destruct (index_of c (columns df)) as [i|] eqn:E; simpl.
  - split; [auto|]. intros [-> | H]; [|done].
    apply index_of_Some in E. by eapply list_elem_of_lookup_2.
  - rewrite elem_of_app, list_elem_of_singleton. tauto.
Qed.

Lemma getitem_setitem df c vals :
  wf_frame df -> length vals = len df ->
  getitem (setitem df c vals) c = Ok vals.
Proof.
  unfold getitem, locate, setitem, len. intros Hwf Hlen.
  destruct (index_of c (columns df)) as [i|] eqn:E; simpl.
  - rewrite E. simpl. f_equal.
    rewrite (fmap_zip_with_rows _ _ (fun _ v => v)); [by apply zip_with_snd_rows|done|].
    eapply Forall_impl; [exact Hwf|]. intros r Hr v. unfold cell_at.
    rewrite list_lookup_insert_eq; [done|].
    rewrite Hr. apply index_of_Some in E. by eapply lookup_lt_Some.
  - apply index_of_None in E. rewrite index_of_app_fresh by done. simpl. f_equal.
    rewrite (fmap_zip_with_rows _ _ (fun _ v => v)); [by apply zip_with_snd_rows|done|].
    eapply Forall_impl; [exact Hwf|]. intros r Hr v. unfold cell_at.
    rewrite <- Hr. by rewrite list_lookup_middle.
Qed.

Lemma getitem_setitem_other df c c' vals :
  c' <> c -> wf_frame df -> length vals = len df ->
  getitem (setitem df c vals) c' = getitem df c'.
Proof.
  unfold getitem, locate, setitem, len. intros Hne Hwf Hlen.
  destruct (index_of c (columns df)) as [i|] eqn:E; simpl.
  - destruct (index_of c' (columns df)) as [j|] eqn:E'; simpl; [|done]. f_equal.
    rewrite (fmap_zip_with_rows _ _ (fun r _ => cell_at r j));
      [by apply zip_with_fst_rows|done|].
    apply Forall_forall. intros r _ v. unfold cell_at.
    rewrite list_lookup_insert_ne; [done|].
    intros ->. apply index_of_Some in E, E'. congruence.
  - rewrite index_of_app_other by done.
    destruct (index_of c' (columns df)) as [j|] eqn:E'; simpl; [|done]. f_equal.
    rewrite (fmap_zip_with_rows _ _ (fun r _ => cell_at r j));
      [by apply zip_with_fst_rows|done|].
    eapply Forall_impl; [exact Hwf|]. intros r Hr v. unfold cell_at.
    rewrite lookup_app_l; [done|].
    rewrite Hr. apply index_of_Some in E'. by eapply lookup_lt_Some.
Qed.

Lemma getitem_length df c s : getitem df c = Ok s -> length s = len df.
Proof.
  unfold getitem, locate. destruct (index_of c (columns df)); simpl; [|done].
  intros [= <-]. by rewrite length_fmap.
Qed.

Lemma getitem_has df c :
  has_column df c = true -> exists s, getitem df c = Ok s.
Proof.
  intros [i Hi]%has_column_index. unfold getitem, locate. rewrite Hi. simpl. eauto.
Qed.

(** *** The normaliser *)

Lemma mapM_result_total {A B} (f : A -> result B) l :
  (forall x, exists y, f x = Ok y) -> exists ys, mapM f l = Ok ys.
Proof.
  intros Hf. induction l as [|x l [ys IH]]; simpl; [by eexists|].
  destruct (Hf x) as [y Hy]. rewrite Hy. simpl. rewrite IH. simpl. by eexists.
Qed.

Lemma mapM_result_Ok {A B} (f : A -> result B) l ys :
  mapM f l = Ok ys -> Forall2 (fun x y => f x = Ok y) l ys.
Proof.
  revert ys. induction l as [|x l IH]; simpl; intros ys.
  - intros [= <-]. constructor.
  - destruct (f x) as [y|] eqn:E; simpl; [|done].
    destruct (mapM f l) as [k|]; simpl; [|done].
    intros [= <-]. constructor; [done|]. by apply IH.
Qed.

Lemma columns_setitem_has df c vals :
  has_column df c = true -> columns (setitem df c vals) = columns df.
Proof.
  intros [i Hi]%has_column_index. unfold setitem. by rewrite Hi.
Qed.

Lemma to_numeric_cell_idemp v : to_numeric_cell (to_numeric_cell v) = to_numeric_cell v.
Proof. destruct v as [|s|z|x]; simpl; try done. by destruct (numeric_of_str s). Qed.

Lemma select_Series df c s :
  select df c = Ok (Series s) -> getitem df c = Ok s.
Proof.
  unfold select. destruct (getitem df c) as [s'|]; simpl; [|done].
  case_bool_decide; [|done]. by intros [= ->].
Qed.

Lemma occurrences_NoDup c labels :
  NoDup labels -> c ∈ labels -> occurrences c labels = 1%nat.
Proof.
  unfold occurrences. induction 1 as [|l labels Hl Hnd IH]; simpl.
  - by intros ?%elem_of_nil.
  - intros [->|Hc]%elem_of_cons.
    + rewrite String.eqb_refl. simpl. f_equal.
      apply length_zero_iff_nil.
      destruct (List.filter _ _) as [|x xs] eqn:E; [done|].
      assert (In x (List.filter (String.eqb l) labels)) as Hx by (rewrite E; by left).
      apply filter_In in Hx as [Hx Heq]. apply String.eqb_eq in Heq as <-.
      by apply list_elem_of_In in Hx.
    + destruct (String.eqb_spec c l) as [->|]; [done|]. by apply IH.
Qed.

Lemma select_unique df c :
  NoDup (columns df) -> has_column df c = true ->
  exists s, select df c = Ok (Series s) /\ getitem df c = Ok s.
Proof.
  intros Hnd Hc. destruct (getitem_has _ _ Hc) as [s Hs].
  exists s. split; [|done]. unfold select. rewrite Hs. simpl.
  rewrite bool_decide_eq_true_2; [done|].
  apply occurrences_NoDup; [done|]. unfold has_column in Hc.
  by apply bool_decide_eq_true in Hc.
Qed.

Lemma coerce_columns_spec cols df df' :
  wf_frame df -> coerce_columns cols df = Ok df' ->
  wf_frame df' /\ len df' = len df /\ columns df' = columns df
  /\ forall c s, getitem df c = Ok s ->
       getitem df' c = Ok (if bool_decide (c ∈ cols) then to_numeric_series s else s).
Proof.
  revert df. induction cols as [|col cols IH]; intros df Hwf; simpl.
  - intros [= <-]. repeat split; done.
  - destruct (has_column df col) eqn:Hcol.
    + destruct (select df col) as [[s0|d]|] eqn:Hsel; simpl; try done.
      apply select_Series in Hsel as Hs0.
      assert (length (to_numeric_series s0) = len df) as Hlen.
      { unfold to_numeric_series. rewrite length_fmap. by eapply getitem_length. }
      intros Hco.
      destruct (IH (setitem df col (to_numeric_series s0))) as (Hwf' & Hlen' & Hcols & Hget);
        [by apply wf_setitem|done|].
      split; [done|].
      rewrite Hlen', len_setitem by done. split; [done|].
      rewrite Hcols, columns_setitem_has by done. split; [done|].
      intros c s Hs. destruct (decide (c = col)) as [->|Hne].
      * rewrite Hs in Hs0. injection Hs0 as <-.
        rewrite (Hget col (to_numeric_series s)) by by apply getitem_setitem.
        rewrite (bool_decide_eq_true_2 (col ∈ col :: cols)) by (apply elem_of_cons; by left).
        f_equal. case_bool_decide; [|done].
        unfold to_numeric_series. rewrite <- list_fmap_compose.
        apply list_fmap_ext. intros _ v _. apply to_numeric_cell_idemp.
      * rewrite (Hget c s) by by rewrite getitem_setitem_other.
        rewrite (bool_decide_ext (c ∈ col :: cols) (c ∈ cols)); [done|].
        rewrite elem_of_cons. tauto.
    + simpl. intros Hco. destruct (IH df Hwf Hco) as (Hwf' & Hlen' & Hcols & Hget).
      repeat split; try done.
      intros c s Hs. rewrite (Hget c s Hs).
      rewrite (bool_decide_ext (c ∈ col :: cols) (c ∈ cols)); [done|].
      rewrite elem_of_cons.
      assert (c <> col); [|tauto].
      intros ->. unfold getitem, locate in Hs.
      destruct (index_of col (columns df)) eqn:E; [|done].
      assert (has_column df col = true) by (apply has_column_index; eauto).
      congruence.
Qed.

Lemma coerce_columns_total cols df :
  NoDup (columns df) -> exists df', coerce_columns cols df = Ok df'.
Proof.
  revert df. induction cols as [|col cols IH]; intros df Hnd; simpl; [by eexists|].
  destruct (has_column df col) eqn:Hcol; simpl; [|by apply IH].
  destruct (select_unique df col Hnd Hcol) as (s & -> & _). simpl.
  apply IH. by rewrite columns_setitem_has.
Qed.

Lemma wf_rename_columns df : wf_frame df -> wf_frame (rename_columns df).
Proof.
  unfold wf_frame, rename_columns, rename. simpl. by rewrite length_fmap.
Qed.

(** What [load_and_prepare_data] returns, when it returns. *)
Lemma load_and_prepare_data_columns raw df :
  wf_frame raw -> load_and_prepare_data raw = Ok df ->
  exists df1,
    coerce_columns numeric_columns (rename_columns raw) = Ok df1
    /\ (forall c s, getitem (rename_columns raw) c = Ok s ->
          getitem df1 c = Ok (if bool_decide (c ∈ numeric_columns)
                              then to_numeric_series s else s))
    /\ (forall c, c <> "longitude"%string -> c <> "latitude"%string ->
          getitem df c = getitem df1 c)
    /\ (has_column df "geocoded_column" = true ->
          exists geo coords,
            getitem df1 "geocoded_column" = Ok geo
            /\ Forall2 (fun g p => parse_point g = Ok p) geo coords
            /\ getitem df "longitude" = Ok ((fun x => CFloat x.1) <$> coords)
            /\ getitem df "latitude" = Ok ((fun x => CFloat x.2) <$> coords)).
Proof.
  intros Hwf Hload. unfold load_and_prepare_data in Hload. fold numeric_columns in Hload.
  destruct (coerce_columns numeric_columns (rename_columns raw)) as [df1|] eqn:Hco;
    simpl in Hload; [|done].
  destruct (coerce_columns_spec _ _ _ (wf_rename_columns _ Hwf) Hco)
    as (Hwf1 & Hlen & Hcols & Hget).
  exists df1. split; [done|]. split; [done|].
  destruct (has_column df1 "geocoded_column") eqn:Hgeo.
  - destruct (select df1 "geocoded_column") as [[geo|d]|] eqn:Hsel; simpl in Hload; try done.
    apply select_Series in Hsel as Hg.
    destruct (mapM parse_point geo) as [coords|] eqn:Hc; simpl in Hload; [|done].
    injection Hload as <-.
    apply mapM_result_Ok in Hc.
    assert (length coords = len df1) as Hcl.
    { rewrite <- (Forall2_length _ _ _ Hc). by eapply getitem_length. }
    set (lon := (fun x : float * float => CFloat x.1) <$> coords).
    set (lat := (fun x : float * float => CFloat x.2) <$> coords).
    assert (length lon = len df1) as Hlon by (unfold lon; by rewrite length_fmap).
    assert (length lat = len (setitem df1 "longitude" lon)) as Hlat.
    { unfold lat. by rewrite length_fmap, len_setitem. }
    split; [|intros _; exists geo, coords; repeat split; try done].
    + intros c H1 H2.
      rewrite getitem_setitem_other; [|done|by apply wf_setitem|done].
      by rewrite getitem_setitem_other.
    + rewrite getitem_setitem_other; [|done|by apply wf_setitem|done].
      by apply getitem_setitem.
    + apply getitem_setitem; [by apply wf_setitem|done].
  - injection Hload as <-. split; [done|]. by rewrite Hgeo.
Qed.

Lemma load_and_prepare_data_total raw :
  NoDup (columns (rename_columns raw)) ->
  exists df, load_and_prepare_data raw = Ok df.
Proof.
  intros Hnd. unfold load_and_prepare_data.
  destruct (coerce_columns_total ["electric_range"; "base_msrp"; "model_year"]%string
              (rename_columns raw) Hnd) as [df1 Hco].
  rewrite Hco. simpl.
  destruct (has_column df1 "geocoded_column") eqn:Hgeo; [|by eexists].
  assert (NoDup (columns df1)) as Hnd1.
  { clear Hgeo. revert Hco Hnd. generalize (rename_columns raw).
    induction ["electric_range"; "base_msrp"; "model_year"]%string as [|col cols IH];
      intros d; simpl.
    - by intros [= <-].
    - destruct (has_column d col) eqn:Hcol; simpl; [|apply IH].
      destruct (select d col) as [[s|?]|]; simpl; try done.
      intros Hco Hnd. eapply IH; [exact Hco|]. by rewrite columns_setitem_has. }
  destruct (select_unique df1 _ Hnd1 Hgeo) as (geo & -> & _). simpl.
  destruct (mapM_result_total parse_point geo parse_point_total) as [coords ->].
  simpl. by eexists.
Qed.

Lemma coerced_to_numeric v : coerced v (to_numeric_cell v).
Proof.
  assert (isna (CFloat nan) = true /\ ~ is_zero (CFloat nan)) as Hnan.
  { split; [done|]. by intros [? | [? ?]]. }
  destruct v as [|s|z|x]; simpl; try done.
  by destruct (numeric_of_str s).
Qed.

Lemma numeric_columns_not_coords col :
  col ∈ numeric_columns -> col <> "longitude"%string /\ col <> "latitude"%string.
Proof.
  unfold numeric_columns. rewrite !elem_of_cons, elem_of_nil.
  intros [-> | [-> | [-> | []]]]; by split.
Qed.

(** C6, as the code has it.  When no two columns of the renamed input
    share a label, the normaliser raises nothing, and in each of the
    columns electric_range, base_msrp and model_year that the renamed
    input has, every cell is replaced as numeric coercion prescribes: a
    number stays that number, a text that reads as a number becomes that
    number, and any other value becomes a missing value, never a zero.  So
    a cell N/A of base_msrp, which the reader does not parse, ends up
    missing. *)
Theorem numeric_coercion raw :
  NoDup (columns (rename_columns raw)) ->
  (exists df, load_and_prepare_data raw = Ok df)
  /\ (forall df col before,
        wf_frame raw -> load_and_prepare_data raw = Ok df ->
        col ∈ numeric_columns ->
        getitem (rename_columns raw) col = Ok before ->
        exists after, getitem df col = Ok after /\ Forall2 coerced before after)
  /\ (forall df before i,
        wf_frame raw -> load_and_prepare_data raw = Ok df ->
        getitem (rename_columns raw) "base_msrp" = Ok before ->
        before !! i = Some (CStr (str "N/A")) ->
        numeric_of_str (str "N/A") = None ->
        exists after v,
          getitem df "base_msrp" = Ok after /\ after !! i = Some v
          /\ isna v = true /\ ~ is_zero v).
Proof.
  intros Hnd.
  assert (forall df col before,
        wf_frame raw -> load_and_prepare_data raw = Ok df ->
        col ∈ numeric_columns ->
        getitem (rename_columns raw) col = Ok before ->
        exists after, getitem df col = Ok after /\ Forall2 coerced before after) as Hmain.
  { intros df col before Hwf Hload Hcol Hbefore.
    destruct (load_and_prepare_data_columns raw df Hwf Hload) as (df1 & _ & Hget & Hother & _).
    destruct (numeric_columns_not_coords col Hcol) as [H1 H2].
    exists (to_numeric_series before). split.
    - rewrite Hother, (Hget _ _ Hbefore) by done.
      by rewrite bool_decide_eq_true_2.
    - unfold to_numeric_series. apply Forall2_fmap_r, Forall_Forall2_diag, Forall_forall.
      intros v _. apply coerced_to_numeric. }
  split; [by apply load_and_prepare_data_total|]. split; [exact Hmain|].
  intros df before i Hwf Hload Hbefore Hi Hna.
  destruct (Hmain df "base_msrp"%string before Hwf Hload) as (after & Hafter & Hall); [|done|].
  { unfold numeric_columns. rewrite !elem_of_cons. auto. }
  destruct (Forall2_lookup_l _ _ _ _ _ Hall Hi) as (v & Hv & Hco).
  exists after, v. unfold coerced in Hco. rewrite Hna in Hco. tauto.
Qed.

Lemma parse_point_paired g x y :
  parse_point g = Ok (x, y) -> is_nan x = is_nan y \/ one_nan_token g.
Proof.
  destruct g as [|s|z|f].
  - by intros [= <- <-]; left.
  - rewrite parse_point_str. intros H.
    destruct (_ && _); [|by injection H as <- <-; left].
    destruct (split (inner (strip s))) as [|a [|b [|c l]]] eqn:Hs;
      try by injection H as <- <-; left.
    destruct (float_of_str a) as [x'|] eqn:Ha; [|by injection H as <- <-; left].
    destruct (float_of_str b) as [y'|] eqn:Hb; [|by injection H as <- <-; left].
    injection H as <- <-.
    destruct (decide (is_nan x' = is_nan y')); [by left|right].
    by exists s, a, b, x', y'.
  - by intros [= <- <-]; left.
  - unfold parse_point, parse_point_body. simpl.
    destruct (is_nan f); by intros [= <- <-]; left.
Qed.

(** C4, as the code has it.  In every row of the normalised frame the
    longitude and the latitude are the pair the decoder returns for the
    point text of that row; they are both missing or both present,
    except in a row whose point text has exactly one token that reads as
    NaN. *)
Theorem longitude_latitude_paired raw df :
  wf_frame raw -> load_and_prepare_data raw = Ok df ->
  has_column df "geocoded_column" = true ->
  exists geo lon lat,
    getitem df "geocoded_column" = Ok geo
    /\ getitem df "longitude" = Ok lon
    /\ getitem df "latitude" = Ok lat
    /\ forall i g, geo !! i = Some g ->
         exists x y,
           lon !! i = Some (CFloat x) /\ lat !! i = Some (CFloat y)
           /\ parse_point g = Ok (x, y)
           /\ (isna (CFloat x) = isna (CFloat y) \/ one_nan_token g).
Proof.
  intros Hwf Hload Hgeo.
  destruct (load_and_prepare_data_columns raw df Hwf Hload) as (df1 & _ & _ & Hother & Hyes).
  destruct (Hyes Hgeo) as (geo & coords & Hg & Hc & Hlon & Hlat).
  exists geo, ((fun x => CFloat x.1) <$> coords), ((fun x => CFloat x.2) <$> coords).
  split; [by rewrite Hother|]. split; [done|]. split; [done|].
  intros i g Hi.
  destruct (Forall2_lookup_l _ _ _ _ _ Hc Hi) as ([x y] & Hxy & Hp).
  exists x, y. rewrite !list_lookup_fmap, Hxy. simpl.
  repeat split; try done. by apply parse_point_paired.
Qed.

(** *** Builders: the guards *)

Lemma locate_Some df c i : index_of c (columns df) = Some i -> locate df c = Ok i.
Proof. unfold locate. by intros ->. Qed.

Lemma locate_None df c : index_of c (columns df) = None -> locate df c = Raise (KeyError c).
Proof. unfold locate. by intros ->. Qed.

Lemma mapM_locate df cols :
  Forall (fun c => has_column df c = true) cols ->
  exists idx, mapM (locate df) cols = Ok idx
    /\ Forall2 (fun c i => index_of c (columns df) = Some i) cols idx.
Proof.
  induction 1 as [|c cols Hc _ (idx & IH & Hall)]; simpl.
  - exists []. by split.
  - apply has_column_index in Hc as [i Hi]. rewrite (locate_Some _ _ _ Hi). simpl.
    rewrite IH. simpl. exists (i :: idx). split; [done|]. by constructor.
Qed.

Lemma dropna_complete df cols :
  Forall (fun c => has_column df c = true) cols ->
  dropna df cols = Ok (mkDF (columns df) (complete_rows df cols)).
Proof.
  intros Hcols. unfold dropna.
  destruct (mapM_locate df cols Hcols) as (idx & -> & Hidx). simpl.
  do 2 f_equal. unfold complete_rows. apply filter_ext. intros r.
  induction Hidx as [|c i cols idx Hi _ IH]; simpl; [done|].
  unfold row_cell at 1. rewrite Hi. f_equal. apply IH. by inversion Hcols.
Qed.

Lemma dropna_missing df cols c :
  c ∈ cols -> has_column df c = false -> exists cs, dropna df cols = Raise (KeyError cs).
Proof.
  intros Hin Hc. unfold dropna.
  induction cols as [|c' cols IH]; [by apply elem_of_nil in Hin|]. simpl.
  destruct (index_of c' (columns df)) as [i|] eqn:E;
    [rewrite (locate_Some _ _ _ E)|rewrite (locate_None _ _ E)]; simpl; [|eauto].
  apply elem_of_cons in Hin as [->|Hin].
  { assert (has_column df c' = true) by (apply has_column_index; eauto). congruence. }
  destruct (IH Hin) as [cs Hcs]. exists cs.
  destruct (mapM (locate df) cols); simpl in *; done.
Qed.

Lemma getitem_row_cell df c :
  has_column df c = true -> getitem df c = Ok (row_cell df c <$> rows df).
Proof.
  intros [i Hi]%has_column_index. unfold getitem, locate, row_cell. by rewrite Hi.
Qed.

Lemma getitem_absent df c :
  has_column df c = false -> getitem df c = Raise (KeyError c).
Proof.
  intros H. unfold getitem, locate.
  destruct (index_of c (columns df)) eqn:E; [|done].
  assert (has_column df c = true) by (apply has_column_index; eauto). congruence.
Qed.

Lemma filter_fmap_pre {A B} (f : A -> B) (p : B -> bool) l :
  List.filter p (f <$> l) = f <$> List.filter (fun x => p (f x)) l.
Proof.
  induction l as [|x l IH]; csimpl; [done|].
  destruct (p (f x)); csimpl; by rewrite IH.
Qed.

Lemma filter_notna_row_cell df c :
  List.filter notna (row_cell df c <$> rows df) = row_cell df c <$> complete_rows df [c].
Proof.
  rewrite filter_fmap_pre. f_equal. unfold complete_rows.
  apply filter_ext. intros r. simpl. by rewrite andb_true_r.
Qed.

Lemma sort_by_nil {A} (leb : A -> A -> bool) : sort_by leb [] = [].
Proof. apply Permutation_nil_r. apply sort_by_perm. Qed.

Lemma sort_by_length {A} (leb : A -> A -> bool) l : length (sort_by leb l) = length l.
Proof. apply Permutation_length, sort_by_perm. Qed.

Lemma sort_by_nil_inv {A} (leb : A -> A -> bool) l : sort_by leb l = [] -> l = [].
Proof.
  intros H. apply length_zero_iff_nil. rewrite <- (sort_by_length leb), H. done.
Qed.

Lemma text_run s w : text s w = (Ok tt, emit w [Text s]).
Proof. done. Qed.

Lemma plotly_run fig w : plotly fig w = (Ok tt, emit w [Plotly fig]).
Proof. done. Qed.

Lemma bind_text {A} s (k : M A) w : (text s;; k) w = k (emit w [Text s]).
Proof. done. Qed.

Lemma bind_lift_Ok {A B} (r : result A) a (k : A -> M B) w :
  r = Ok a -> (lift r ≫= k) w = k a w.
Proof. by intros ->. Qed.

Lemma bind_lift_Raise {A B} (r : result A) e (k : A -> M B) w :
  r = Raise e -> (lift r ≫= k) w = (Raise e, w).
Proof. by intros ->. Qed.

Lemma emit_emit w a b : emit (emit w a) b = emit w (a ++ b).
Proof. unfold emit. simpl. by rewrite <- app_assoc. Qed.

Ltac run_texts := rewrite ?bind_text, ?text_run, ?plotly_run, ?emit_emit.

(** The seven guarded builders: a required column that is absent gives
    the fixed text and nothing else. *)
Lemma column_guards df w :
  ((has_column df "longitude" = false \/ has_column df "latitude" = false) ->
     plot_ev_map df w
     = (Ok tt, emit w [Text "Geocoded location data not available for mapping."]))
  /\ (has_column df "ev_type" = false ->
        plot_bev_phev_share df w = (Ok tt, emit w [Text "EV type data not available."]))
  /\ (has_column df "electric_range" = false ->
        plot_electric_range_distribution df w
        = (Ok tt, emit w [Text "Electric range data not available."]))
  /\ (has_column df "city" = false ->
        plot_top_cities df w = (Ok tt, emit w [Text "City data not available."]))
  /\ (has_column df "county" = false ->
        plot_top_counties df w = (Ok tt, emit w [Text "County data not available."]))
  /\ ((has_column df "base_msrp" = false \/ has_column df "ev_type" = false) ->
        plot_msrp_by_ev_type df w
        = (Ok tt, emit w [Text "MSRP or EV type data not available."]))
  /\ (has_column df "model_year" = false ->
        plot_yearly_trend df w = (Ok tt, emit w [Text "Model year data not available."])).
Proof.
  repeat split.
  - intros H. unfold plot_ev_map.
    replace (has_column df "longitude" && has_column df "latitude") with false; [done|].
    destruct H as [-> | ->]; [done|]. by rewrite andb_false_r.
  - intros H. unfold plot_bev_phev_share. by rewrite H.
  - intros H. unfold plot_electric_range_distribution. by rewrite H.
  - intros H. unfold plot_top_cities. by rewrite H.
  - intros H. unfold plot_top_counties. by rewrite H.
  - intros H. unfold plot_msrp_by_ev_type.
    replace (has_column df "base_msrp" && has_column df "ev_type") with false; [done|].
    destruct H as [-> | ->]; [done|]. by rewrite andb_false_r.
  - intros H. unfold plot_yearly_trend. by rewrite H.
Qed.

Lemma has_column_false df c :
  has_column df c = false -> index_of c (columns df) = None.
Proof.
  intros H. destruct (index_of c (columns df)) eqn:E; [|done].
  assert (has_column df c = true) by (apply has_column_index; eauto). congruence.
Qed.

(** The builder of top makes and models has no such guard: without the
    column make, or without the column model, the group-by raises. *)
Lemma plot_top_makes_models_unguarded df w :
  (has_column df "make" = false ->
     plot_top_makes_models df w = (Raise (KeyError "make"), w))
  /\ (has_column df "make" = true -> has_column df "model" = false ->
        plot_top_makes_models df w = (Raise (KeyError "model"), w)).
Proof.
  split.
  - intros H%has_column_false. apply bind_lift_Raise. unfold groupby_size. simpl.
    by rewrite (locate_None _ _ H).
  - intros [i Hi]%has_column_index H%has_column_false.
    apply bind_lift_Raise. unfold groupby_size. simpl.
    by rewrite (locate_Some _ _ _ Hi), (locate_None _ _ H).
Qed.

(** *** Builders: what they render *)

Lemma empty_rows df c rs :
  has_column df c = true -> empty (mkDF (columns df) rs) = bool_decide (rs = []).
Proof.
  intros [i Hi]%has_column_index. unfold empty. simpl.
  destruct (columns df); [done|]. by rewrite orb_false_r.
Qed.

Lemma count_keys_nil {K} (eqb : K -> K -> bool) l : count_keys eqb l = [] -> l = [].
Proof.
  unfold count_keys. destruct l as [|k l]; [done|]. simpl.
  assert (forall acc, acc <> [] -> fold_left (fun acc k => bump eqb k acc) l acc <> []) as H.
  { induction l as [|k' l IH]; intros acc Hacc; simpl; [done|].
    apply IH. destruct acc as [|[k0 n] acc]; [done|]. simpl. by destruct (eqb k0 k'). }
  intros E. by apply H in E.
Qed.

Lemma value_counts_nil s : value_counts s = [] <-> List.filter notna s = [].
Proof.
  unfold value_counts. split.
  - intros H%sort_by_nil_inv. by apply count_keys_nil in H.
  - intros ->. apply sort_by_nil.
Qed.

Lemma lift_value_counts df c :
  has_column df c = true ->
  (s ← getitem df c;
   set_columns (reset_index c (value_counts s)) [c; "count"%string])
  = Ok (vc_table c (row_cell df c <$> rows df)).
Proof. intros H. by rewrite (getitem_row_cell _ _ H). Qed.

Lemma empty_vc_table c s :
  empty (vc_table c s) = bool_decide (List.filter notna s = []).
Proof.
  unfold empty, vc_table. simpl. rewrite orb_false_r.
  apply bool_decide_ext. rewrite <- value_counts_nil.
  split; [apply fmap_nil_inv|by intros ->].
Qed.

Lemma bind_sample {B} df n seed (k : DataFrame -> M B) w :
  (n <= len df)%nat -> (sample df n (Some seed) ≫= k) w = k (sampled seed n df) w.
Proof.
  intros H. unfold mbind, M_bind, sample. by rewrite bool_decide_eq_true_2.
Qed.

Lemma scatter_mapbox_run d rs ttl :
  has_column d "longitude" = true -> has_column d "latitude" = true ->
  scatter_mapbox (mkDF (columns d) rs) "latitude" "longitude"
    (if has_column d "city" then Some "city"%string else None)
    ["make"; "model"; "model_year"; "county"]%string ttl
  = if forallb (has_column d) hover_columns
    then Ok (mkFig ScatterMapbox (mkDF (columns d) rs) ttl)
    else Raise ValueError.
Proof.
  intros Hlon Hlat. unfold scatter_mapbox.
  change (has_column (mkDF (columns d) rs)) with (has_column d).
  cbn [forallb app]. rewrite Hlon, Hlat. cbn [andb].
  unfold hover_columns.
  destruct (has_column d "city") eqn:E.
  - change (option_list (Some "city"%string)) with ["city"%string].
    cbn [forallb app]. by rewrite E.
  - done.
Qed.

Lemma plot_ev_map_run df w :
  has_column df "longitude" = true -> has_column df "latitude" = true ->
  let map_df := mkDF (columns df) (complete_rows df ["longitude"; "latitude"]%string) in
  plot_ev_map df w =
    if empty map_df then
      (Ok tt,
       emit w [Text "No valid geolocation data available for mapping EV registrations."])
    else if forallb (has_column df) hover_columns then
      (Ok tt,
       emit w [Text "## Washington State EV Registration Map";
               Text caption_ev_map;
               Plotly (mkFig ScatterMapbox
                         (sampled 42 (Nat.min 5000 (len map_df)) map_df)
                         "EV Registrations Across Washington State")])
    else
      (Raise ValueError,
       emit w [Text "## Washington State EV Registration Map"; Text caption_ev_map]).
Proof.
  intros Hlon Hlat map_df. unfold plot_ev_map. rewrite Hlon, Hlat. cbn [andb].
  rewrite (bind_lift_Ok _ map_df) by (apply dropna_complete; by repeat constructor).
  destruct (empty map_df); cbn [negb]; [done|].
  run_texts. rewrite bind_sample by lia.
  unfold sampled at 1. change (has_column map_df "city") with (has_column df "city").
  change (columns map_df) with (columns df).
  rewrite scatter_mapbox_run by done.
  destruct (forallb (has_column df) hover_columns).
  - rewrite (bind_lift_Ok _ _ _ _ eq_refl). by run_texts.
  - by rewrite (bind_lift_Raise _ ValueError).
Qed.

Lemma plot_value_counts_run (b : DataFrame -> M unit) c absent heading caption k n ttl nodata :
  (forall df, b df =
     if has_column df c then
       t ← lift (s ← getitem df c;
                 set_columns (reset_index c (value_counts s)) [c; "count"%string]);
       if negb (empty t) then
         text heading;; text caption;; plotly (mkFig k (n t) ttl)
       else text nodata
     else text absent) ->
  forall df w, has_column df c = true ->
    let t := vc_table c (row_cell df c <$> rows df) in
    b df w = (Ok tt, emit w (if empty t then [Text nodata]
                             else [Text heading; Text caption;
                                   Plotly (mkFig k (n t) ttl)])).
Proof.
  intros Hb df w Hc t. rewrite Hb, Hc.
  rewrite (bind_lift_Ok _ t) by by apply lift_value_counts.
  destruct (empty t); cbn [negb]; [done|]. by run_texts.
Qed.

Lemma plot_bev_phev_share_run df w :
  has_column df "ev_type" = true ->
  let t := vc_table "ev_type" (row_cell df "ev_type" <$> rows df) in
  plot_bev_phev_share df w =
    (Ok tt, emit w (if empty t then [Text "No data available for BEV vs PHEV share."]
                    else [Text "## BEV vs PHEV Share"; Text caption_bev_phev_share;
                          Plotly (mkFig Pie t "BEV vs PHEV Share")])).
Proof.
  by apply (plot_value_counts_run plot_bev_phev_share "ev_type"
              "EV type data not available." "## BEV vs PHEV Share"
              caption_bev_phev_share Pie (fun t => t) "BEV vs PHEV Share"
              "No data available for BEV vs PHEV share.").
Qed.

Lemma plot_top_cities_run df w :
  has_column df "city" = true ->
  let t := vc_table "city" (row_cell df "city" <$> rows df) in
  plot_top_cities df w =
    (Ok tt, emit w (if empty t then [Text "No data available for top cities."]
                    else [Text "## Top Cities for EVs"; Text caption_top_cities;
                          Plotly (mkFig Bar (head t 15) "Top 15 Cities for EVs")])).
Proof.
  by apply (plot_value_counts_run plot_top_cities "city"
              "City data not available." "## Top Cities for EVs"
              caption_top_cities Bar (fun t => head t 15) "Top 15 Cities for EVs"
              "No data available for top cities.").
Qed.

Lemma plot_top_counties_run df w :
  has_column df "county" = true ->
  let t := vc_table "county" (row_cell df "county" <$> rows df) in
  plot_top_counties df w =
    (Ok tt, emit w (if empty t then [Text "No data available for top counties."]
                    else [Text "## Top Counties for EVs"; Text caption_top_counties;
                          Plotly (mkFig Bar (head t 15) "Top 15 Counties for EVs")])).
Proof.
  by apply (plot_value_counts_run plot_top_counties "county"
              "County data not available." "## Top Counties for EVs"
              caption_top_counties Bar (fun t => head t 15) "Top 15 Counties for EVs"
              "No data available for top counties.").
Qed.

Lemma plot_electric_range_distribution_run df w :
  has_column df "electric_range" = true ->
  let range_df := mkDF (columns df) (complete_rows df ["electric_range"]%string) in
  plot_electric_range_distribution df w =
    (Ok tt,
     emit w ([Text "## Electric Range Distribution";
              Text caption_electric_range_distribution]
             ++ (if empty range_df
                 then [Text "No data available for electric range distribution."]
                 else [Plotly (mkFig Histogram range_df
                                 "Distribution of Electric Range (miles)")]))).
Proof.
  intros Hc range_df. unfold plot_electric_range_distribution. rewrite Hc.
  run_texts.
  rewrite (bind_lift_Ok _ range_df) by (apply dropna_complete; by repeat constructor).
  destruct (empty range_df); cbn [negb]; by run_texts.
Qed.

Lemma plot_msrp_by_ev_type_run df w :
  has_column df "base_msrp" = true -> has_column df "ev_type" = true ->
  let msrp_df := mkDF (columns df) (complete_rows df ["base_msrp"; "ev_type"]%string) in
  plot_msrp_by_ev_type df w =
    (Ok tt,
     emit w ([Text "## MSRP by EV Type"; Text caption_msrp_by_ev_type]
             ++ (if empty msrp_df
                 then [Text "No MSRP data available for BEV or PHEV vehicles."]
                 else [Plotly (mkFig Box msrp_df "MSRP by EV Type")]))).
Proof.
  intros H1 H2 msrp_df. unfold plot_msrp_by_ev_type. rewrite H1, H2. cbn [andb].
  run_texts.
  rewrite (bind_lift_Ok _ msrp_df) by (apply dropna_complete; by repeat constructor).
  destruct (empty msrp_df); cbn [negb]; by run_texts.
Qed.

Lemma sort_values_run df by_ ascending i :
  index_of by_ (columns df) = Some i ->
  sort_values df by_ ascending =
    if orderable ((fun r => cell_at r i) <$> rows df)
    then Ok (mkDF (columns df) (sort_by (by_column i ascending) (rows df)))
    else Raise TypeError.
Proof.
  intros Hi. unfold sort_values. by rewrite (locate_Some _ _ _ Hi).
Qed.

Lemma plot_yearly_trend_run df w :
  has_column df "model_year" = true ->
  let t := vc_table "model_year" (row_cell df "model_year" <$> rows df) in
  plot_yearly_trend df w =
    if orderable ((fun r => cell_at r 0) <$> rows t) then
      (Ok tt,
       emit w ([Text "## Yearly Trend of EV Registrations"; Text caption_yearly_trend]
               ++ (if empty t
                   then [Text "No registration data available by model year."]
                   else [Plotly (mkFig Line (year_trend_of df)
                                   "EV Registrations by Model Year")])))
    else
      (Raise TypeError,
       emit w [Text "## Yearly Trend of EV Registrations"; Text caption_yearly_trend]).
Proof.
  intros Hc t. unfold plot_yearly_trend. rewrite Hc. run_texts.
  assert ((s ← getitem df "model_year";
           yt ← set_columns (reset_index "model_year" (value_counts s))
                  ["model_year"; "count"]%string;
           sort_values yt "model_year" true)
          = sort_values t "model_year" true) as Hlift.
  { by rewrite (getitem_row_cell _ _ Hc). }
  rewrite Hlift, (sort_values_run t _ _ 0) by done.
  destruct (orderable _).
  - rewrite (bind_lift_Ok _ (year_trend_of df)) by done.
    assert (empty (year_trend_of df) = empty t) as ->.
    { unfold empty, year_trend_of. simpl. f_equal. apply bool_decide_ext.
      fold t. split; [apply sort_by_nil_inv|]. intros ->. apply sort_by_nil. }
    destruct (empty t); cbn [negb]; by run_texts.
  - by rewrite (bind_lift_Raise _ TypeError).
Qed.

Lemma groupby_size_run df :
  has_column df "make" = true -> has_column df "model" = true ->
  groupby_size df ["make"; "model"]%string "count" = Ok (grouped df).
Proof.
  intros [i Hi]%has_column_index [j Hj]%has_column_index.
  unfold groupby_size. simpl.
  rewrite (locate_Some _ _ _ Hi), (locate_Some _ _ _ Hj). simpl.
  unfold grouped. do 5 f_equal.
  rewrite filter_fmap_pre. unfold complete_rows, make_model_key, row_cell.
  rewrite Hi, Hj. csimpl. f_equal.
  apply filter_ext. intros r. simpl. by rewrite Hi, Hj.
Qed.

Lemma bump_fst {K} (eqb : K -> K -> bool) (P : K -> Prop) k acc :
  P k -> Forall (fun kn => P kn.1) acc -> Forall (fun kn => P kn.1) (bump eqb k acc).
Proof.
  intros Hk. induction 1 as [|[k' n] acc Hk' Hacc IH]; simpl.
  - by repeat constructor.
  - destruct (eqb k' k); by constructor.
Qed.

Lemma fold_bump_fst {K} (eqb : K -> K -> bool) (P : K -> Prop) l acc :
  Forall P l -> Forall (fun kn => P kn.1) acc ->
  Forall (fun kn => P kn.1) (fold_left (fun acc k => bump eqb k acc) l acc).
Proof.
  intros Hl. revert acc. induction Hl as [|k l Hk _ IH]; intros acc Hacc; simpl.
  - exact Hacc.
  - apply IH. by apply bump_fst.
Qed.

Lemma count_keys_fst {K} (eqb : K -> K -> bool) (P : K -> Prop) l :
  Forall P l -> Forall (fun kn => P kn.1) (count_keys eqb l).
Proof. intros Hl. by apply fold_bump_fst. Qed.

Lemma grouped_rows df :
  Forall (fun r => exists a b n, r = [a; b; CInt n]) (rows (grouped df)).
Proof.
  unfold grouped. simpl. apply Forall_fmap.
  rewrite sort_by_perm.
  eapply Forall_impl.
  - apply (count_keys_fst cells_eqb (fun k => length k = 2%nat)).
    apply Forall_fmap, Forall_forall. by intros r _.
  - intros [k n] Hk. simpl in *.
    destruct k as [|a [|b [|c k]]]; try done. by exists a, b, n.
Qed.

Lemma wf_grouped df : wf_frame (grouped df).
Proof.
  unfold wf_frame. eapply Forall_impl; [apply grouped_rows|].
  by intros r (a & b & n & ->).
Qed.

Lemma grouped_orderable df :
  orderable ((fun r => cell_at r 2) <$> rows (grouped df)) = true.
Proof.
  unfold orderable. apply negb_true_iff, andb_false_iff. left.
  apply not_true_iff_false. intros (v & Hv & Ht)%existsb_exists.
  apply in_map_iff in Hv as (r & <- & Hr).
  pose proof (grouped_rows df) as Hg.
  rewrite Forall_forall in Hg.
  destruct (Hg r) as (a & b & n & ->); [by apply list_elem_of_In|]. done.
Qed.

Lemma plot_top_makes_models_run df w :
  has_column df "make" = true -> has_column df "model" = true ->
  let top_models := top_models_of df in
  plot_top_makes_models df w =
    if empty top_models then
      (Ok tt, emit w [Text "No data available for top makes and models."])
    else
      match make_model_of top_models with
      | Ok make_model =>
          (Ok tt,
           emit w [Text "## Top Makes and Models"; Text caption_top_makes_models;
                   Plotly (mkFig Bar (setitem top_models "make_model" make_model)
                             "Top 15 EV Makes and Models")])
      | Raise e =>
          (Raise e,
           emit w [Text "## Top Makes and Models"; Text caption_top_makes_models])
      end.
Proof.
  intros Hmake Hmodel top_models. unfold plot_top_makes_models.
  rewrite (bind_lift_Ok _ top_models).
  2:{ rewrite groupby_size_run by done. simpl.
      rewrite (sort_values_run _ _ _ 2) by done.
      by rewrite grouped_orderable. }
  destruct (empty top_models); cbn [negb]; [done|].
  run_texts. fold (make_model_of top_models).
  destruct (make_model_of top_models) as [mm|e] eqn:E.
  - rewrite (bind_lift_Ok _ mm) by done. by run_texts.
  - by rewrite (bind_lift_Raise _ e).
Qed.

(** C1, at a failing input.  On a frame without the column make the
    builder of top makes and models raises a KeyError and renders
    nothing, where each of the seven other builders renders its fixed
    text when its column is absent. *)
Theorem plot_top_makes_models_raises w :
  plot_top_makes_models frame_without_make w = (Raise (KeyError "make"), w).
Proof. by apply plot_top_makes_models_unguarded. Qed.

Lemma empty_no_rows cs : empty (mkDF cs []) = true.
Proof. done. Qed.



(** *** The map sample *)




(** Without one of the columns of the hover data, the map builder raises
    after its heading and its caption, however many valid rows there
    are. *)
Lemma plot_ev_map_unguarded_hover df w :
  has_column df "longitude" = true -> has_column df "latitude" = true ->
  complete_rows df ["longitude"; "latitude"]%string <> [] ->
  forallb (has_column df) hover_columns = false ->
  plot_ev_map df w
  = (Raise ValueError,
     emit w [Text "## Washington State EV Registration Map"; Text caption_ev_map]).
Proof.
  intros Hlon Hlat Hrows Hhover. rewrite plot_ev_map_run by done.
  rewrite (empty_rows df "longitude") by done.
  rewrite bool_decide_eq_false_2 by done. by rewrite Hhover.
Qed.

(** C8, at a failing input.  On a frame of 6000 rows with both coordinates
    and no column make, the map builder renders its heading and its
    caption and then raises a ValueError: the hover data of the chart
    names columns the frame does not have.  No chart is rendered. *)
Theorem plot_ev_map_raises w :
  plot_ev_map frame_6000 w
  = (Raise ValueError,
     emit w [Text "## Washington State EV Registration Map"; Text caption_ev_map]).
Proof.
  apply plot_ev_map_unguarded_hover; by vm_compute.
Qed.

(** *** Missing values in the counting builders *)

Lemma filter_idemp {A} (p : A -> bool) l :
  List.filter p (List.filter p l) = List.filter p l.
Proof.
  induction l as [|x l IH]; simpl; [done|].
  destruct (p x) eqn:E; simpl; [|done]. by rewrite E, IH.
Qed.

Lemma complete_rows_drop_missing df c :
  complete_rows (drop_missing df c) [c] = complete_rows df [c].
Proof.
  exact (filter_idemp
           (fun r => forallb (fun c0 => notna (row_cell df c0 r)) [c]) (rows df)).
Qed.

Lemma vc_table_drop_missing df c :
  vc_table c (row_cell (drop_missing df c) c <$> rows (drop_missing df c))
  = vc_table c (row_cell df c <$> rows df).
Proof.
  unfold vc_table, value_counts. do 4 f_equal.
  rewrite !filter_notna_row_cell.
  by rewrite complete_rows_drop_missing.
Qed.

Lemma has_column_drop_missing df c c' :
  has_column (drop_missing df c) c' = has_column df c'.
Proof. done. Qed.

Lemma value_counts_keys s :
  Forall (fun kn => notna kn.1 = true) (value_counts s).
Proof.
  unfold value_counts. rewrite sort_by_perm.
  apply (count_keys_fst cell_eqb (fun k => notna k = true)).
  apply Forall_forall. intros v Hv%list_elem_of_In%filter_In. tauto.
Qed.

Lemma vc_table_keys c s :
  Forall (fun r => notna (cell_at r 0) = true) (rows (vc_table c s)).
Proof.
  unfold vc_table. cbn [rows]. apply Forall_fmap.
  eapply Forall_impl; [apply value_counts_keys|]. by intros [k n].
Qed.

Lemma charts_emit g evs :
  charts (out (emit (mkWorld [] g) evs)) = charts evs.
Proof. done. Qed.

Lemma year_trend_keys df :
  Forall (fun r => notna (cell_at r 0) = true) (rows (year_trend_of df)).
Proof.
  unfold year_trend_of. cbn [rows]. rewrite sort_by_perm. apply vc_table_keys.
Qed.

(** C10.  In the builders of the type share, of the top cities, of the
    top counties and of the yearly trend, a row whose counted column is
    missing takes no part: the builder renders the same blocks on the
    frame with those rows removed, and no row of a rendered chart has a
    missing value as its category. *)
Theorem missing_values_not_counted df :
  (forall w,
      plot_bev_phev_share df w = plot_bev_phev_share (drop_missing df "ev_type") w
      /\ plot_top_cities df w = plot_top_cities (drop_missing df "city") w
      /\ plot_top_counties df w = plot_top_counties (drop_missing df "county") w
      /\ plot_yearly_trend df w = plot_yearly_trend (drop_missing df "model_year") w)
  /\ (forall g fig,
        fig ∈ charts_of (plot_bev_phev_share df) g
        \/ fig ∈ charts_of (plot_top_cities df) g
        \/ fig ∈ charts_of (plot_top_counties df) g
        \/ fig ∈ charts_of (plot_yearly_trend df) g ->
        Forall (fun r => notna (cell_at r 0) = true) (rows (data fig))).
Proof.
  split.
  - intros w. repeat split.
    + destruct (has_column df "ev_type") eqn:E.
      * rewrite !plot_bev_phev_share_run by done. by rewrite vc_table_drop_missing.
      * by rewrite !(proj1 (proj2 (column_guards _ w))).
    + destruct (has_column df "city") eqn:E.
      * rewrite !plot_top_cities_run by done. by rewrite vc_table_drop_missing.
      * by rewrite !(proj1 (proj2 (proj2 (proj2 (column_guards _ w))))).
    + destruct (has_column df "county") eqn:E.
      * rewrite !plot_top_counties_run by done. by rewrite vc_table_drop_missing.
      * by rewrite !(proj1 (proj2 (proj2 (proj2 (proj2 (column_guards _ w)))))).
    + destruct (has_column df "model_year") eqn:E.
      * rewrite !plot_yearly_trend_run by done.
        unfold year_trend_of. by rewrite vc_table_drop_missing.
      * by rewrite !(proj2 (proj2 (proj2 (proj2 (proj2 (proj2 (column_guards _ w))))))).
  - intros g fig. unfold charts_of. intros [H | [H | [H | H]]].
    + destruct (has_column df "ev_type") eqn:E.
      * rewrite plot_bev_phev_share_run in H by done. cbn [snd] in H.
        rewrite charts_emit in H. destruct (empty _); simpl in H.
        -- by apply elem_of_nil in H.
        -- apply list_elem_of_singleton in H as ->. apply vc_table_keys.
      * rewrite (proj1 (proj2 (column_guards _ _))) in H by done.
        by apply elem_of_nil in H.
    + destruct (has_column df "city") eqn:E.
      * rewrite plot_top_cities_run in H by done. cbn [snd] in H.
        rewrite charts_emit in H. destruct (empty _); simpl in H.
        -- by apply elem_of_nil in H.
        -- apply list_elem_of_singleton in H as ->. cbn [data head rows].
           apply Forall_take, vc_table_keys.
      * rewrite (proj1 (proj2 (proj2 (proj2 (column_guards _ _))))) in H by done.
        by apply elem_of_nil in H.
    + destruct (has_column df "county") eqn:E.
      * rewrite plot_top_counties_run in H by done. cbn [snd] in H.
        rewrite charts_emit in H. destruct (empty _); simpl in H.
        -- by apply elem_of_nil in H.
        -- apply list_elem_of_singleton in H as ->. cbn [data head rows].
           apply Forall_take, vc_table_keys.
      * rewrite (proj1 (proj2 (proj2 (proj2 (proj2 (column_guards _ _)))))) in H by done.
        by apply elem_of_nil in H.
    + destruct (has_column df "model_year") eqn:E.
      * rewrite plot_yearly_trend_run in H by done.
        destruct (orderable _); cbn [snd] in H; rewrite charts_emit in H.
        -- destruct (empty _); simpl in H.
           ++ by apply elem_of_nil in H.
           ++ apply list_elem_of_singleton in H as ->. apply year_trend_keys.
        -- by apply elem_of_nil in H.
      * rewrite (proj2 (proj2 (proj2 (proj2 (proj2 (proj2 (column_guards _ _))))))) in H by done.
        by apply elem_of_nil in H.
Qed.

(** *** The order of sorting *)

Lemma pystr_leb_total s t : pystr_leb s t = true \/ pystr_leb t s = true.
Proof.
  revert t. induction s as [|a s IH]; intros [|b t]; simpl; auto.
  destruct (code a <? code b)%N eqn:E1; [auto|].
  destruct (code b <? code a)%N eqn:E2; [auto|]. apply IH.
Qed.

Lemma pystr_leb_trans s t u :
  pystr_leb s t = true -> pystr_leb t u = true -> pystr_leb s u = true.
Proof.
  revert t u. induction s as [|a s IH]; intros [|b t] [|c u]; simpl; try done.
  destruct (N.ltb_spec (code a) (code b)), (N.ltb_spec (code b) (code a)),
           (N.ltb_spec (code b) (code c)), (N.ltb_spec (code c) (code b)),
           (N.ltb_spec (code a) (code c)), (N.ltb_spec (code c) (code a));
    try done; try (intros; exfalso; lia).
  apply IH.
Qed.

Lemma fin_le_scale m1 e1 m2 e2 E :
  E <= e1 -> E <= e2 ->
  (m1 * 2 ^ (e1 - Z.min e1 e2) <= m2 * 2 ^ (e2 - Z.min e1 e2)
   <-> m1 * 2 ^ (e1 - E) <= m2 * 2 ^ (e2 - E)).
Proof.
  intros H1 H2. set (e := Z.min e1 e2).
  assert (0 <= e - E) as Hd by lia.
  replace (e1 - E) with ((e1 - e) + (e - E)) by lia.
  replace (e2 - E) with ((e2 - e) + (e - E)) by lia.
  rewrite !Z.pow_add_r by lia. rewrite !Z.mul_assoc.
  assert (0 < 2 ^ (e - E)) by (apply Z.pow_pos_nonneg; lia).
  split; intros H3; nia.
Qed.

Lemma ereal_leb_total a b : ereal_leb a b = true \/ ereal_leb b a = true.
Proof.
  destruct a as [|m1 e1|], b as [|m2 e2|]; simpl; auto.
  rewrite (Z.min_comm e2 e1). rewrite !Z.leb_le. lia.
Qed.

Lemma ereal_leb_trans a b c :
  ereal_leb a b = true -> ereal_leb b c = true -> ereal_leb a c = true.
Proof.
  destruct a as [|m1 e1|], b as [|m2 e2|], c as [|m3 e3|]; simpl; try done.
  rewrite !Z.leb_le. set (E := Z.min e1 (Z.min e2 e3)).
  rewrite (fin_le_scale m1 e1 m2 e2 E), (fin_le_scale m2 e2 m3 e3 E),
    (fin_le_scale m1 e1 m3 e3 E) by lia.
  lia.
Qed.

Lemma key_leb_total a b : key_leb a b = true \/ key_leb b a = true.
Proof.
  destruct a, b; simpl; auto using ereal_leb_total, pystr_leb_total.
Qed.

Lemma key_leb_trans a b c :
  key_leb a b = true -> key_leb b c = true -> key_leb a c = true.
Proof.
  destruct a, b, c; simpl; try done;
    eauto using ereal_leb_trans, pystr_leb_trans.
Qed.

Lemma by_column_total i asc r1 r2 :
  by_column i asc r1 r2 = true \/ by_column i asc r2 r1 = true.
Proof. unfold by_column, cell_leb. destruct asc; apply key_leb_total. Qed.

Lemma by_column_trans i asc r1 r2 r3 :
  by_column i asc r1 r2 = true -> by_column i asc r2 r3 = true ->
  by_column i asc r1 r3 = true.
Proof.
  unfold by_column, cell_leb. destruct asc; eauto using key_leb_trans.
Qed.


(** *** The top-N builders *)













Lemma mapM_result_length {A B} (f : A -> result B) l ys :
  mapM f l = Ok ys -> length ys = length l.
Proof. intros H%mapM_result_Ok. symmetry. by eapply Forall2_length. Qed.




(* ===================================================================== *)
(** ** Further properties of the code *)

(** *** The glossary *)

Lemma string_app_assoc (a b c : string) : (a +:+ b) +:+ c = a +:+ (b +:+ c).
Proof.
  induction a as [|x a IH]; [done|].
  change (String x ((a +:+ b) +:+ c) = String x (a +:+ (b +:+ c))).
  by rewrite IH.
Qed.

Lemma concat_app sep (l1 l2 : list string) :
  l1 <> [] -> l2 <> [] ->
  String.concat sep (l1 ++ l2)
  = String.concat sep l1 +:+ sep +:+ String.concat sep l2.
Proof.
  intros H1 H2. induction l1 as [|x l1 IH]; [done|].
  destruct l1 as [|y l1].
  - simpl. by destruct l2.
  - change (String.concat sep ((x :: y :: l1) ++ l2))
      with (x +:+ sep +:+ String.concat sep ((y :: l1) ++ l2)).
    rewrite IH by done.
    change (String.concat sep (x :: y :: l1))
      with (x +:+ sep +:+ String.concat sep (y :: l1)).
    by rewrite !string_app_assoc.
Qed.

Lemma known_line k :
  known k = match glossary_line k with Some _ => true | None => false end.
Proof.
  unfold known, glossary_line. destruct (abbr !! k) as [v|].
  - by rewrite bool_decide_eq_true_2 by by eexists.
  - by rewrite bool_decide_eq_false_2 by by intros [? ?].
Qed.

Lemma glossary_lines_known keys :
  omap glossary_line keys = omap glossary_line (List.filter known keys).
Proof.
  induction keys as [|k keys IH]; [done|].
  cbn [List.filter]. rewrite known_line. csimpl.
  destruct (glossary_line k) as [t|] eqn:E; csimpl; rewrite ?E; csimpl; by rewrite IH.
Qed.

Lemma glossary_lines_nil keys :
  omap glossary_line keys = [] <-> List.filter known keys = [].
Proof.
  induction keys as [|k keys IH]; [done|].
  cbn [List.filter]. rewrite known_line. csimpl.
  by destruct (glossary_line k) as [t|] eqn:E; csimpl.
Qed.

(** X3.  [abbr_explain] skips the keys that the glossary does not have:
    it gives the same text as on the known keys alone, and the empty text
    when no key is known.  The text for two lists of keys, each with a
    known key, is the two texts with a line break between them. *)
Theorem abbr_explain_known_keys keys1 keys2 :
  abbr_explain keys1 = abbr_explain (List.filter known keys1)
  /\ (List.filter known keys1 = [] -> abbr_explain keys1 = ""%string)
  /\ (List.filter known keys1 = [] -> abbr_explain (keys1 ++ keys2) = abbr_explain keys2)
  /\ (List.filter known keys1 <> [] -> List.filter known keys2 <> [] ->
      abbr_explain (keys1 ++ keys2)
      = abbr_explain keys1 +:+ nl +:+ abbr_explain keys2).
Proof.
  unfold abbr_explain. fold glossary_line.
  repeat split.
  - by rewrite glossary_lines_known.
  - intros H%glossary_lines_nil. by rewrite H.
  - intros H%glossary_lines_nil. by rewrite omap_app, H.
  - intros H1 H2. rewrite omap_app. apply concat_app.
    + by rewrite glossary_lines_nil.
    + by rewrite glossary_lines_nil.
Qed.

(** *** The guards, once more *)

(** X2.  Each of the seven builders that test for their columns renders
    its fixed text, and nothing else, when a required column is absent. *)
Theorem absent_column_fallback df w :
  ((has_column df "longitude" = false \/ has_column df "latitude" = false) ->
     plot_ev_map df w
     = (Ok tt, emit w [Text "Geocoded location data not available for mapping."]))
  /\ (has_column df "ev_type" = false ->
        plot_bev_phev_share df w = (Ok tt, emit w [Text "EV type data not available."]))
  /\ (has_column df "electric_range" = false ->
        plot_electric_range_distribution df w
        = (Ok tt, emit w [Text "Electric range data not available."]))
  /\ (has_column df "city" = false ->
        plot_top_cities df w = (Ok tt, emit w [Text "City data not available."]))
  /\ (has_column df "county" = false ->
        plot_top_counties df w = (Ok tt, emit w [Text "County data not available."]))
  /\ ((has_column df "base_msrp" = false \/ has_column df "ev_type" = false) ->
        plot_msrp_by_ev_type df w
        = (Ok tt, emit w [Text "MSRP or EV type data not available."]))
  /\ (has_column df "model_year" = false ->
        plot_yearly_trend df w = (Ok tt, emit w [Text "Model year data not available."])).
Proof. exact (column_guards df w). Qed.

(** *** What a run leaves behind *)

Lemma appends_text s : appends (text s).
Proof. intros w. by exists [Text s]. Qed.

Lemma appends_plotly fig : appends (plotly fig).
Proof. intros w. by exists [Plotly fig]. Qed.

Lemma appends_lift {A} (r : result A) : appends (lift r).
Proof.
  intros w. exists []. unfold lift, emit. simpl. rewrite app_nil_r. by destruct w.
Qed.

Lemma appends_sample df n seed : appends (sample df n (Some seed)).
Proof.
  intros w. exists []. unfold sample, emit.
  case_bool_decide; simpl; rewrite app_nil_r; by destruct w.
Qed.

Lemma appends_bind {A B} (m : M A) (k : A -> M B) :
  appends m -> (forall a, appends (k a)) -> appends (m ≫= k).
Proof.
  intros Hm Hk w. unfold mbind, M_bind.
  destruct (Hm w) as [evs Hevs]. destruct (m w) as [[a|e] w1]; simpl in *; subst w1.
  - destruct (Hk a (emit w evs)) as [evs' ->]. exists (evs ++ evs'). apply emit_emit.
  - by exists evs.
Qed.

Ltac appends_steps :=
  repeat first
    [ apply appends_text | apply appends_plotly | apply appends_lift
    | apply appends_sample | apply appends_bind
    | match goal with |- appends (if ?b then _ else _) => destruct b end
    | match goal with |- forall _, appends _ => intros ? end ].

(** X4.  Every builder, and the report as a whole, only adds to the
    rendered blocks: whether it returns or raises, what was rendered
    before is still there, in front, and the state of the process-wide
    generator is what it was. *)
Theorem builders_only_append df :
  appends (plot_ev_map df) /\ appends (plot_top_makes_models df)
  /\ appends (plot_bev_phev_share df) /\ appends (plot_electric_range_distribution df)
  /\ appends (plot_top_cities df) /\ appends (plot_top_counties df)
  /\ appends (plot_msrp_by_ev_type df) /\ appends (plot_yearly_trend df)
  /\ appends (report df).
Proof.
  assert (appends (plot_ev_map df)) as H1 by (unfold plot_ev_map; appends_steps).
  assert (appends (plot_top_makes_models df)) as H2
    by (unfold plot_top_makes_models; appends_steps).
  assert (appends (plot_bev_phev_share df)) as H3
    by (unfold plot_bev_phev_share; appends_steps).
  assert (appends (plot_electric_range_distribution df)) as H4
    by (unfold plot_electric_range_distribution; appends_steps).
  assert (appends (plot_top_cities df)) as H5 by (unfold plot_top_cities; appends_steps).
  assert (appends (plot_top_counties df)) as H6 by (unfold plot_top_counties; appends_steps).
  assert (appends (plot_msrp_by_ev_type df)) as H7
    by (unfold plot_msrp_by_ev_type; appends_steps).
  assert (appends (plot_yearly_trend df)) as H8 by (unfold plot_yearly_trend; appends_steps).
  repeat split; try done.
  unfold report.
  apply appends_bind; [apply appends_text|intros _].
  apply appends_bind; [exact H1|intros _].
  apply appends_bind; [exact H2|intros _].
  apply appends_bind; [exact H3|intros _].
  apply appends_bind; [exact H4|intros _].
  apply appends_bind; [exact H5|intros _].
  apply appends_bind; [exact H6|intros _].
  apply appends_bind; [exact H7|intros _].
  exact H8.
Qed.

(** X5.  The report does not catch what a builder raises.  On a frame
    without the column make it never completes: it raises, and nothing is
    rendered after the blocks of the title and of the map builder. *)
Theorem report_stops_without_make df w :
  has_column df "make" = false ->
  (exists e, (report df w).1 = Raise e)
  /\ (report df w).2
     = (plot_ev_map df
          (emit w [Text "# Washington State Electric Vehicle Population Explorer"])).2.
Proof.
  intros Hmake.
  set (w0 := emit w [Text "# Washington State Electric Vehicle Population Explorer"]).
  assert (report df w
          = match plot_ev_map df w0 with
            | (Ok _, w1) => (Raise (KeyError "make"), w1)
            | (Raise e, w1) => (Raise e, w1)
            end) as ->.
  { unfold report. rewrite bind_text. fold w0. unfold mbind, M_bind.
    destruct (plot_ev_map df w0) as [[[]|e] w1]; [|done].
    by rewrite (proj1 (plot_top_makes_models_unguarded df w1) Hmake). }
  destruct (plot_ev_map df w0) as [[[]|e] w1]; simpl; eauto.
Qed.

(** *** The normaliser, as a whole *)

Lemma load_and_prepare_data_frame raw df :
  wf_frame raw -> load_and_prepare_data raw = Ok df ->
  wf_frame df /\ len df = len raw
  /\ forall c,
       c ∈ columns df <->
       c ∈ columns (rename_columns raw)
       \/ (has_column (rename_columns raw) "geocoded_column" = true
           /\ (c = "longitude"%string \/ c = "latitude"%string)).
Proof.
  intros Hwf Hload. unfold load_and_prepare_data in Hload. fold numeric_columns in Hload.
  destruct (coerce_columns numeric_columns (rename_columns raw)) as [df1|] eqn:Hco;
    simpl in Hload; [|done].
  destruct (coerce_columns_spec _ _ _ (wf_rename_columns _ Hwf) Hco)
    as (Hwf1 & Hlen & Hcols & _).
  assert (has_column df1 "geocoded_column"
          = has_column (rename_columns raw) "geocoded_column") as Hsame
    by (unfold has_column; by rewrite Hcols).
  assert (len (rename_columns raw) = len raw) as Hlr by done.
  destruct (has_column df1 "geocoded_column") eqn:Hgeo.
  - destruct (select df1 "geocoded_column") as [[geo|d]|] eqn:Hsel; simpl in Hload; try done.
    apply select_Series in Hsel as Hg.
    destruct (mapM parse_point geo) as [coords|] eqn:Hc; simpl in Hload; [|done].
    injection Hload as <-.
    apply mapM_result_length in Hc.
    assert (length coords = len df1) as Hcl.
    { rewrite Hc. by eapply getitem_length. }
    split; [by do 2 apply wf_setitem|].
    split.
    + assert (len (setitem df1 "longitude" ((fun x : float * float => CFloat x.1) <$> coords))
              = len df1) as H1 by (apply len_setitem; by rewrite length_fmap).
      rewrite len_setitem by (by rewrite length_fmap, H1). congruence.
    + intros c. rewrite !columns_setitem, Hcols, <- Hsame. tauto.
  - injection Hload as <-. split; [done|]. split; [congruence|].
    intros c. rewrite Hcols, <- Hsame. split; [tauto|]. intros [?|[? _]]; done.
Qed.

(** X6.  When the normaliser returns, its frame is rectangular and has as
    many rows as the input; its labels are the renamed labels of the
    input, and longitude and latitude besides when the point text is
    among them. *)
Theorem load_and_prepare_data_shape raw df :
  wf_frame raw -> load_and_prepare_data raw = Ok df ->
  wf_frame df /\ len df = len raw
  /\ forall c,
       c ∈ columns df <->
       c ∈ columns (rename_columns raw)
       \/ (has_column (rename_columns raw) "geocoded_column" = true
           /\ (c = "longitude"%string \/ c = "latitude"%string)).
Proof. exact (load_and_prepare_data_frame raw df). Qed.

(** *** Which builders can raise *)

Lemma to_numeric_cell_not_text v : is_text (to_numeric_cell v) = false.
Proof. destruct v as [|s|z|x]; simpl; try done. by destruct (numeric_of_str s). Qed.

Lemma value_counts_no_text s :
  Forall (fun v => is_text v = false) s ->
  Forall (fun kn => is_text kn.1 = false) (value_counts s).
Proof.
  intros Hs. unfold value_counts. rewrite sort_by_perm.
  apply (count_keys_fst cell_eqb (fun k => is_text k = false)).
  apply Forall_forall. intros v Hv%list_elem_of_In%filter_In.
  rewrite Forall_forall in Hs. apply Hs. apply list_elem_of_In. tauto.
Qed.

Lemma vc_table_orderable c s :
  Forall (fun v => is_text v = false) s ->
  orderable ((fun r => cell_at r 0) <$> rows (vc_table c s)) = true.
Proof.
  intros Hs. unfold orderable. apply negb_true_iff, andb_false_iff. left.
  apply not_true_iff_false. intros (v & Hv & Ht)%existsb_exists.
  apply in_map_iff in Hv as (r & <- & Hr).
  unfold vc_table in Hr. cbn [rows] in Hr.
  apply in_map_iff in Hr as ([k n] & <- & Hkn).
  pose proof (value_counts_no_text s Hs) as Hall.
  rewrite Forall_forall in Hall. apply list_elem_of_In, Hall in Hkn.
  change (is_text k = true) in Ht. change (is_text k = false) in Hkn. congruence.
Qed.

(** X7.  On any frame whose labels are distinct the builders of the type
    share, of the range distribution, of the top cities, of the top
    counties and of the price by type return without raising.  The
    builder of the yearly trend returns on every such frame in which the
    model year holds no text, hence on every one the normaliser
    returns. *)
Theorem builders_that_return df w :
  NoDup (columns df) ->
  (plot_bev_phev_share df w).1 = Ok tt
  /\ (plot_electric_range_distribution df w).1 = Ok tt
  /\ (plot_top_cities df w).1 = Ok tt
  /\ (plot_top_counties df w).1 = Ok tt
  /\ (plot_msrp_by_ev_type df w).1 = Ok tt
  /\ (Forall (fun v => is_text v = false) (row_cell df "model_year" <$> rows df) ->
      (plot_yearly_trend df w).1 = Ok tt)
  /\ (forall raw, wf_frame raw -> load_and_prepare_data raw = Ok df ->
      (plot_yearly_trend df w).1 = Ok tt).
Proof.
  intros _.
  assert (Forall (fun v => is_text v = false) (row_cell df "model_year" <$> rows df) ->
          (plot_yearly_trend df w).1 = Ok tt) as Hyear.
  { intros Hs. destruct (has_column df "model_year") eqn:E.
    - rewrite plot_yearly_trend_run by done. by rewrite vc_table_orderable.
    - by rewrite (proj2 (proj2 (proj2 (proj2 (proj2 (proj2 (column_guards _ w))))))). }
  repeat split.
  - destruct (has_column df "ev_type") eqn:E.
    + by rewrite plot_bev_phev_share_run.
    + by rewrite (proj1 (proj2 (column_guards _ w))).
  - destruct (has_column df "electric_range") eqn:E.
    + by rewrite plot_electric_range_distribution_run.
    + by rewrite (proj1 (proj2 (proj2 (column_guards _ w)))).
  - destruct (has_column df "city") eqn:E.
    + by rewrite plot_top_cities_run.
    + by rewrite (proj1 (proj2 (proj2 (proj2 (column_guards _ w))))).
  - destruct (has_column df "county") eqn:E.
    + by rewrite plot_top_counties_run.
    + by rewrite (proj1 (proj2 (proj2 (proj2 (proj2 (column_guards _ w)))))).
  - destruct (has_column df "base_msrp") eqn:E1, (has_column df "ev_type") eqn:E2;
      try (rewrite plot_msrp_by_ev_type_run by done; done);
      by rewrite (proj1 (proj2 (proj2 (proj2 (proj2 (proj2 (column_guards _ w))))))) by auto.
  - exact Hyear.
  - intros raw Hwf Hload. apply Hyear.
    destruct (has_column df "model_year") eqn:E.
    2:{ apply has_column_false in E. unfold row_cell. rewrite E.
        apply Forall_fmap, Forall_forall. by intros r _. }
    destruct (load_and_prepare_data_columns raw df Hwf Hload) as (df1 & Hco & Hget & Hother & _).
    destruct (load_and_prepare_data_frame raw df Hwf Hload) as (_ & _ & Hcols).
    assert (has_column (rename_columns raw) "model_year" = true) as Hraw.
    { unfold has_column in *. apply bool_decide_eq_true in E. apply bool_decide_eq_true.
      apply Hcols in E as [?|[_ [?|?]]]; done. }
    destruct (getitem_has _ _ Hraw) as [s Hs].
    pose proof (getitem_row_cell _ _ E) as Hrc.
    rewrite Hother, (Hget _ _ Hs) in Hrc by done.
    rewrite bool_decide_eq_true_2 in Hrc
      by (unfold numeric_columns; rewrite !elem_of_cons; auto).
    injection Hrc as <-. unfold to_numeric_series.
    apply Forall_fmap, Forall_forall. intros v _. apply to_numeric_cell_not_text.
Qed.

(** *** Counts *)

Lemma total_bump {K} (eqb : K -> K -> bool) k acc :
  total (bump eqb k acc).*2 = total acc.*2 + 1.
Proof.
  induction acc as [|[k' n] acc IH]; csimpl; [done|].
  destruct (eqb k' k); csimpl; [lia|]. rewrite IH. lia.
Qed.

Lemma total_fold_bump {K} (eqb : K -> K -> bool) l acc :
  total (fold_left (fun acc k => bump eqb k acc) l acc).*2
  = total acc.*2 + Z.of_nat (length l).
Proof.
  revert acc. induction l as [|k l IH]; intros acc; simpl; [lia|].
  rewrite IH, total_bump. lia.
Qed.

Lemma total_perm l l' : l ≡ₚ l' -> total l = total l'.
Proof. induction 1; simpl; lia. Qed.

Lemma value_counts_total s :
  total (value_counts s).*2 = Z.of_nat (length (List.filter notna s)).
Proof.
  unfold value_counts.
  rewrite (total_perm _ (count_keys cell_eqb (List.filter notna s)).*2)
    by (apply fmap_Permutation, sort_by_perm).
  unfold count_keys. by rewrite total_fold_bump.
Qed.

Lemma counts_vc_table c s :
  c <> "count"%string -> counts (vc_table c s) = (value_counts s).*2.
Proof.
  intros Hc. unfold counts, getitem, locate, vc_table. cbn [columns rows].
  cbn [index_of]. apply String.eqb_neq in Hc. rewrite Hc. cbn.
  rewrite <- !list_fmap_compose. by apply list_fmap_ext.
Qed.

Lemma counts_year_trend df :
  counts (year_trend_of df)
  ≡ₚ (value_counts (row_cell df "model_year" <$> rows df)).*2.
Proof.
  rewrite <- (counts_vc_table "model_year") by done.
  unfold counts, getitem, locate, year_trend_of. cbn.
  apply fmap_Permutation, fmap_Permutation, sort_by_perm.
Qed.

(** X8.  On a frame whose labels are distinct, the counts of the pie
    chart add up to the number of rows that have a type.  When the model
    year holds no text, the counts of the line chart add up to the number
    of rows that have a model year, and its rows come in ascending order
    of the year. *)
Theorem counts_add_up df g :
  NoDup (columns df) ->
  (has_column df "ev_type" = true -> complete_rows df ["ev_type"%string] <> [] ->
   exists fig,
     charts_of (plot_bev_phev_share df) g = [fig]
     /\ total (counts (data fig))
        = Z.of_nat (length (complete_rows df ["ev_type"%string])))
  /\ (has_column df "model_year" = true -> complete_rows df ["model_year"%string] <> [] ->
      Forall (fun v => is_text v = false) (row_cell df "model_year" <$> rows df) ->
      exists fig,
        charts_of (plot_yearly_trend df) g = [fig]
        /\ total (counts (data fig))
           = Z.of_nat (length (complete_rows df ["model_year"%string]))
        /\ StronglySorted (fun r1 r2 => cell_leb (cell_at r1 0) (cell_at r2 0) = true)
             (rows (data fig))).
Proof.
  intros _. split.
  - intros Hc Hrows. unfold charts_of.
    rewrite plot_bev_phev_share_run by done. cbn [snd]. rewrite charts_emit.
    rewrite empty_vc_table, filter_notna_row_cell.
    rewrite bool_decide_eq_false_2 by (by intros ?%fmap_nil_inv).
    eexists. split; [done|]. cbn [data].
    rewrite counts_vc_table, value_counts_total, filter_notna_row_cell by done.
    by rewrite length_fmap.
  - intros Hc Hrows Hs. unfold charts_of.
    rewrite plot_yearly_trend_run by done.
    rewrite vc_table_orderable by done. cbn [snd]. rewrite charts_emit.
    rewrite empty_vc_table, filter_notna_row_cell.
    rewrite bool_decide_eq_false_2 by (by intros ?%fmap_nil_inv).
    eexists. split; [done|]. cbn [data]. split.
    + rewrite (total_perm _ _ (counts_year_trend df)).
      rewrite value_counts_total, filter_notna_row_cell. by rewrite length_fmap.
    + unfold year_trend_of. cbn [rows].
      apply (sort_by_sorted _ (by_column 0 true)).
      * apply by_column_total.
      * apply by_column_trans.
Qed.

(** *** The label of a bar *)

Lemma mapM_result_Forall {A B} (f : A -> result B) (P : B -> Prop) l :
  Forall (fun x => exists y, f x = Ok y /\ P y) l ->
  exists ys, mapM f l = Ok ys /\ Forall P ys /\ length ys = length l.
Proof.
  induction 1 as [|x l (y & Hy & HP) _ (ys & IH & HPs & Hlen)]; simpl.
  - by exists [].
  - rewrite Hy. simpl. rewrite IH. simpl. exists (y :: ys).
    repeat split; [by constructor|]. simpl. by rewrite Hlen.
Qed.

Lemma mapM_result_cons {A B} (f : A -> result B) x l y ys :
  f x = Ok y -> mapM f l = Ok ys -> mapM f (x :: l) = Ok (y :: ys).
Proof. intros H1 H2. simpl. rewrite H1. simpl. by rewrite H2. Qed.

Lemma mapM_result_Raise {A B} (f : A -> result B) x l e :
  f x = Raise e -> mapM f (x :: l) = Raise e.
Proof. intros H. simpl. by rewrite H. Qed.

Lemma top_models_keys df (P : list cell -> Prop) :
  Forall (fun r => P (make_model_key df r))
    (complete_rows df ["make"; "model"]%string) ->
  Forall (fun r => exists a b n, r = [a; b; CInt n] /\ P [a; b])
    (rows (top_models_of df)).
Proof.
  intros HP. unfold top_models_of, head. cbn [rows]. apply Forall_take.
  rewrite sort_by_perm. unfold grouped. cbn [rows]. apply Forall_fmap.
  rewrite sort_by_perm.
  eapply Forall_impl.
  - apply (count_keys_fst cells_eqb (fun k => length k = 2%nat /\ P k)).
    apply Forall_fmap. eapply Forall_impl; [exact HP|]. by intros r Hr.
  - intros [k n] [Hk Hp]. simpl in *.
    destruct k as [|a [|b [|c k]]]; try done. by exists a, b, n.
Qed.

Lemma top_models_nonempty df :
  complete_rows df ["make"; "model"]%string <> [] -> rows (top_models_of df) <> [].
Proof.
  intros Hne Hnil. apply Hne.
  unfold top_models_of, head, grouped in Hnil. cbn [rows columns] in Hnil.
  destruct (sort_by (by_column 2 false) _) as [|r rs] eqn:Hs; [|done].
  apply sort_by_nil_inv, fmap_nil_inv, sort_by_nil_inv, count_keys_nil in Hs.
  by apply fmap_nil_inv in Hs.
Qed.

Lemma make_model_of_top df :
  make_model_of (top_models_of df)
  = (make_ ← mapM (fun a => add_str a (CStr (str " ")))
               ((fun r => cell_at r 0) <$> rows (top_models_of df));
     mapM (fun ab : cell * cell => add_str ab.1 ab.2)
       (zip make_ ((fun r => cell_at r 1) <$> rows (top_models_of df)))).
Proof. done. Qed.

Lemma label_rows (rs : list (list cell)) :
  Forall (fun r => exists a b n, r = [a; b; CInt n]
                   /\ is_text (cell_at [a; b] 0) = true
                   /\ is_text (cell_at [a; b] 1) = true) rs ->
  exists mm,
    (make_ ← mapM (fun a => add_str a (CStr (str " "))) ((fun r => cell_at r 0) <$> rs);
     mapM (fun ab : cell * cell => add_str ab.1 ab.2)
       (zip make_ ((fun r => cell_at r 1) <$> rs))) = Ok mm
    /\ Forall2 (fun r v => exists a b, cell_at r 0 = CStr a /\ cell_at r 1 = CStr b
                                       /\ v = CStr (a ++ str " " ++ b)) rs mm.
Proof.
  induction 1 as [|r rs (a & b & n & -> & Ha & Hb) _ (mm & Hmm & Hall)].
  - exists []. split; [done|constructor].
  - destruct a as [|a| |]; try done. destruct b as [|b| |]; try done.
    rewrite !fmap_cons.
    change (cell_at [CStr a; CStr b; CInt n] 0) with (CStr a).
    change (cell_at [CStr a; CStr b; CInt n] 1) with (CStr b).
    destruct (mapM (fun a => add_str a (CStr (str " "))) ((fun r => cell_at r 0) <$> rs))
      as [make_|] eqn:E; [|done].
    change (mapM (fun ab : cell * cell => add_str ab.1 ab.2)
              (zip make_ ((fun r => cell_at r 1) <$> rs)) = Ok mm) in Hmm.
    exists (CStr ((a ++ str " ") ++ b) :: mm). split.
    + rewrite (mapM_result_cons _ (CStr a) _ (CStr (a ++ str " ")) make_ eq_refl E).
      exact (mapM_result_cons (fun ab : cell * cell => add_str ab.1 ab.2)
               (CStr (a ++ str " "), CStr b) _ _ mm eq_refl Hmm).
    + constructor; [|done]. exists a, b. by rewrite <- app_assoc.
Qed.

(** X9.  On a frame with distinct labels, make and model among them, and
    a row that has both, the builder of top makes and models returns,
    having rendered its heading, its caption and a chart, when make and
    model hold text in every row that has both.  When make is not text
    in any of these rows, it raises a TypeError after the heading and the
    caption, and renders no chart. *)
Theorem make_model_label df w :
  NoDup (columns df) ->
  has_column df "make" = true -> has_column df "model" = true ->
  complete_rows df ["make"; "model"]%string <> [] ->
  (Forall (fun r => is_text (row_cell df "make" r) = true
                    /\ is_text (row_cell df "model" r) = true)
     (complete_rows df ["make"; "model"]%string) ->
   exists make_model,
     plot_top_makes_models df w
     = (Ok tt,
        emit w [Text "## Top Makes and Models"; Text caption_top_makes_models;
                Plotly (mkFig Bar (setitem (top_models_of df) "make_model" make_model)
                          "Top 15 EV Makes and Models")])
     /\ Forall2 (fun r v => exists a b, cell_at r 0 = CStr a /\ cell_at r 1 = CStr b
                                        /\ v = CStr (a ++ str " " ++ b))
          (rows (top_models_of df)) make_model)
  /\ (Forall (fun r => is_text (row_cell df "make" r) = false)
        (complete_rows df ["make"; "model"]%string) ->
      plot_top_makes_models df w
      = (Raise TypeError,
         emit w [Text "## Top Makes and Models"; Text caption_top_makes_models])).
Proof.
  intros _ Hmake Hmodel Hne.
  pose proof (top_models_nonempty df Hne) as Hrows.
  assert (empty (top_models_of df) = false) as Hempty.
  { unfold empty. rewrite bool_decide_eq_false_2 by done. done. }
  split.
  - intros Htext.
    pose proof (top_models_keys df
      (fun k => is_text (cell_at k 0) = true /\ is_text (cell_at k 1) = true) Htext) as Hk.
    assert (exists mm, make_model_of (top_models_of df) = Ok mm
            /\ Forall2 (fun r v => exists a b, cell_at r 0 = CStr a /\ cell_at r 1 = CStr b
                                               /\ v = CStr (a ++ str " " ++ b))
                 (rows (top_models_of df)) mm) as (mm & Hmm & Hall).
    { rewrite make_model_of_top. by apply label_rows. }
    exists mm. split; [|done].
    rewrite plot_top_makes_models_run by done. cbv zeta. by rewrite Hempty, Hmm.
  - intros Hnum.
    pose proof (top_models_keys df (fun k => is_text (cell_at k 0) = false) Hnum) as Hk.
    rewrite plot_top_makes_models_run by done. cbv zeta. rewrite Hempty.
    assert (make_model_of (top_models_of df) = Raise TypeError) as ->; [|done].
    rewrite make_model_of_top.
    destruct (rows (top_models_of df)) as [|r rs]; [done|].
    apply Forall_cons in Hk as [(a & b & n & -> & Ha) _].
    rewrite !fmap_cons, (mapM_result_Raise _ _ _ TypeError); [done|].
    by destruct a.
Qed.
End Report.

(* ===================================================================== *)
(** ** The reference instances meet the assumptions *)

Lemma merge_sort_by_perm A (leb : A -> A -> bool) l : merge_sort_by A leb l ≡ₚ l.
Proof. apply merge_sort_Permutation. Qed.

Lemma merge_sort_by_sorted A (leb : A -> A -> bool) l :
  (forall x y, leb x y = true \/ leb y x = true) ->
  (forall x y z, leb x y = true -> leb y z = true -> leb x z = true) ->
  StronglySorted (fun x y => leb x y = true) (merge_sort_by A leb l).
Proof.
  intros Htotal Htrans.
  exact (@StronglySorted_merge_sort A (fun x y => leb x y = true)
           (fun x y => bool_eq_dec (leb x y) true) Htrans Htotal l).
Qed.




(* ===================================================================== *)
(** ** The theorems at concrete inputs *)

(** A text with three tokens is malformed, and decodes to (NaN, NaN). *)
Lemma parse_point_malformed_sentinel_witness :
  malformed (CStr (str "POINT (1 2 3)"))
  /\ parse_point (CStr (str "POINT (1 2 3)")) = Ok (nan, nan).
Proof.
  assert (malformed (CStr (str "POINT (1 2 3)"))) as H.
  { right. right. eexists. split; [reflexivity|].
    right. right. left. vm_compute. lia. }
  split; [exact H|].
  exact (proj2 parse_point_malformed_sentinel _ H).
Defined.

(** Tabs and runs of spaces around the two tokens are accepted. *)
Lemma parse_point_accepts_witness :
  parse_point
    (CStr (str " " ++ str "POINT (" ++ (str "  " ++ str "1.5" ++ str "   " ++ str "-2" ++ str " ")
           ++ str ")" ++ str "  "))
  = Ok (S754_finite false 6755399441055744 (-52), S754_finite true 4503599627370496 (-51)).
Proof.
  apply (proj1 parse_point_accepts);
    try (by repeat constructor); try (by vm_compute).
Defined.

Lemma frame_raw_labels : NoDup (columns (rename_columns frame_raw)).
Proof. apply (bool_decide_unpack _). by vm_compute. Qed.

(** The normaliser on a raw frame with a price N/A and a point text. *)
Lemma numeric_coercion_witness :
  exists df after v,
    load_and_prepare_data float_of_str frame_raw = Ok df
    /\ getitem df "base_msrp" = Ok after /\ after !! 0%nat = Some v
    /\ isna v = true /\ ~ is_zero v.
Proof.
  destruct (proj1 (numeric_coercion float_of_str frame_raw frame_raw_labels)) as [df Hdf].
  destruct (proj2 (proj2 (numeric_coercion float_of_str frame_raw frame_raw_labels)) df
              [CStr (str "N/A"); CStr (str "31000")] 0%nat)
    as (after & v & H); [by apply (bool_decide_unpack _); vm_compute|exact Hdf|
                         by vm_compute|by vm_compute|by vm_compute|].
  exists df, after, v. split; [exact Hdf|exact H].
Defined.

Lemma longitude_latitude_paired_witness :
  exists df geo lon lat,
    load_and_prepare_data float_of_str frame_raw = Ok df
    /\ getitem df "geocoded_column" = Ok geo
    /\ getitem df "longitude" = Ok lon
    /\ getitem df "latitude" = Ok lat
    /\ forall i g, geo !! i = Some g ->
         exists x y,
           lon !! i = Some (CFloat x) /\ lat !! i = Some (CFloat y)
           /\ parse_point g = Ok (x, y)
           /\ (isna (CFloat x) = isna (CFloat y) \/ one_nan_token g).
Proof.
  destruct (load_and_prepare_data_total float_of_str frame_raw frame_raw_labels) as [df Hdf].
  destruct (longitude_latitude_paired float_of_str frame_raw df)
    as (geo & lon & lat & H); [by apply (bool_decide_unpack _); vm_compute|exact Hdf| |].
  - vm_compute in Hdf. injection Hdf as <-. by vm_compute.
  - exists df, geo, lon, lat. split; [exact Hdf|exact H].
Defined.



Lemma missing_values_not_counted_witness :
  plot_top_cities merge_sort_by frame_30_cities (mkWorld [] 0)
  = plot_top_cities merge_sort_by (drop_missing frame_30_cities "city") (mkWorld [] 0).
Proof.
  exact (proj1 (proj2 (proj1 (missing_values_not_counted merge_sort_by merge_sort_by_perm
                                first_choice seed_of frame_30_cities) (mkWorld [] 0)))).
Defined.


(** A glossary with an unknown key in it. *)
Lemma abbr_explain_known_keys_witness :
  abbr_explain (["EV"; "XX"]%string ++ ["WA"%string])
  = abbr_explain ["EV"; "XX"]%string +:+ nl +:+ abbr_explain ["WA"%string].
Proof.
  apply (proj2 (proj2 (proj2 (abbr_explain_known_keys ["EV"; "XX"]%string ["WA"%string]))));
    by vm_compute.
Defined.

(** The builder of the type share on a frame without the type. *)
Lemma absent_column_fallback_witness :
  plot_bev_phev_share merge_sort_by frame_without_make (mkWorld [] 0)
  = (Ok tt, emit (mkWorld [] 0) [Text "EV type data not available."]).
Proof.
  exact (proj1 (proj2 (absent_column_fallback merge_sort_by first_choice seed_of
                         frame_without_make (mkWorld [] 0))) eq_refl).
Defined.

(** The report on a frame without make. *)
Lemma report_stops_without_make_witness :
  exists e,
    (report merge_sort_by first_choice seed_of frame_without_make (mkWorld [] 0)).1 = Raise e.
Proof.
  exact (proj1 (report_stops_without_make merge_sort_by first_choice seed_of
                  frame_without_make (mkWorld [] 0) eq_refl)).
Defined.

(** The normaliser on the raw frame with a point text. *)
Lemma load_and_prepare_data_shape_witness :
  exists df,
    load_and_prepare_data float_of_str frame_raw = Ok df
    /\ wf_frame df /\ len df = len frame_raw.
Proof.
  destruct (load_and_prepare_data_total float_of_str frame_raw frame_raw_labels) as [df Hdf].
  destruct (load_and_prepare_data_shape float_of_str frame_raw df) as (Hwf & Hlen & _);
    [by apply (bool_decide_unpack _); vm_compute|exact Hdf|].
  exists df. split; [exact Hdf|]. split; [exact Hwf|exact Hlen].
Defined.

Lemma frame_years_labels : NoDup (columns frame_years).
Proof. apply (bool_decide_unpack _). by vm_compute. Qed.

Lemma frame_models_labels : NoDup (columns frame_models).
Proof. apply (bool_decide_unpack _). by vm_compute. Qed.

(** The builder of the yearly trend on years that are numbers. *)
Lemma builders_that_return_witness :
  (plot_yearly_trend merge_sort_by frame_years (mkWorld [] 0)).1 = Ok tt.
Proof.
  apply (proj1 (proj2 (proj2 (proj2 (proj2 (proj2
           (builders_that_return float_of_str merge_sort_by merge_sort_by_perm
              first_choice seed_of frame_years (mkWorld [] 0) frame_years_labels))))))).
  by repeat constructor.
Defined.

(** Three rows with a type, in two categories. *)
Lemma counts_add_up_witness :
  exists fig,
    charts_of (plot_bev_phev_share merge_sort_by frame_years) 0 = [fig]
    /\ total (counts (data fig))
       = Z.of_nat (length (complete_rows frame_years ["ev_type"%string])).
Proof.
  apply (proj1 (counts_add_up merge_sort_by merge_sort_by_perm merge_sort_by_sorted
                  frame_years 0 frame_years_labels)); by vm_compute.
Defined.

(** The three rows of makes and models, all text. *)
Lemma make_model_label_witness :
  exists make_model,
    plot_top_makes_models merge_sort_by frame_models (mkWorld [] 0)
    = (Ok tt,
       emit (mkWorld [] 0)
         [Text "## Top Makes and Models"; Text caption_top_makes_models;
          Plotly (mkFig Bar (setitem (top_models_of merge_sort_by frame_models)
                               "make_model" make_model)
                    "Top 15 EV Makes and Models")])
    /\ Forall2 (fun r v => exists a b, cell_at r 0 = CStr a /\ cell_at r 1 = CStr b
                                       /\ v = CStr (a ++ str " " ++ b))
         (rows (top_models_of merge_sort_by frame_models)) make_model.
Proof.
  apply (proj1 (make_model_label merge_sort_by merge_sort_by_perm frame_models
                  (mkWorld [] 0) frame_models_labels eq_refl eq_refl
                  ltac:(by vm_compute))).
  by repeat constructor.
Defined.

(* ===================================================================== *)
(** ** Where the code departs from the specification *)

(** C3.  Two spaces between the tokens are not the bit-exact format, yet
    the decoder returns the two floats and not the pair (NaN, NaN). *)
Lemma spacing_counterexample :
  ~ exact_format (str "POINT (-122.33  47.61)")
  /\ parse_point (CStr (str "POINT (-122.33  47.61)"))
     = Ok (S754_finite true 8608208475253637 (-46),
           S754_finite false 6700511820597166 (-47))
  /\ parse_point (CStr (str "POINT (-122.33  47.61)")) <> Ok (nan, nan).
Proof.
  split; [|split; [by vm_compute|by vm_compute]].
  intros (a & b & Ha & Hb & H).
  change (str "POINT (-122.33  47.61)")
    with (str "POINT (" ++ str "-122.33  47.61)") in H.
  apply app_inv_head in H.
  do 7 (destruct a as [|? a]; [by inversion H|];
        injection H as <- H; apply Forall_cons in Ha as [_ Ha]).
  destruct a as [|c a].
  - injection H as H. destruct b as [|c b]; [done|].
    injection H as <- _. by apply Forall_cons in Hb as [Hb _].
  - injection H as <- _. by apply Forall_cons in Ha as [Ha _].
Qed.

(** C4.  With NaN as the first token of the point text, the longitude of
    the row is missing and its latitude is present. *)
Lemma half_missing_counterexample :
  exists df,
    load_and_prepare_data float_of_str frame_nan_token = Ok df
    /\ getitem df "longitude" = Ok [CFloat nan]
    /\ getitem df "latitude" = Ok [CFloat (S754_finite false 6700511820597166 (-47))]
    /\ ~ jointly_missing df.
Proof.
  eexists. split; [by vm_compute|]. split; [by vm_compute|]. split; [by vm_compute|].
  intros H.
  specialize (H [CFloat nan] [CFloat (S754_finite false 6700511820597166 (-47))]).
  assert (Forall2 (fun x y => isna x = isna y)
            [CFloat nan] [CFloat (S754_finite false 6700511820597166 (-47))]) as H'
    by (apply H; by vm_compute).
  by inversion H'.
Qed.

(** C6.  A raw frame with the columns Base MSRP and base_msrp has the
    column base_msrp after the renaming, twice; the selection of it is a
    frame, and the numeric coercion raises a TypeError. *)
Lemma colliding_labels_counterexample :
  wf_frame frame_colliding
  /\ has_column (rename_columns frame_colliding) "base_msrp" = true
  /\ load_and_prepare_data float_of_str frame_colliding = Raise TypeError
  /\ ~ (exists df, load_and_prepare_data float_of_str frame_colliding = Ok df).
Proof.
  split; [apply (bool_decide_unpack _); by vm_compute|].
  split; [by vm_compute|].
  assert (load_and_prepare_data float_of_str frame_colliding = Raise TypeError) as H
    by by vm_compute.
  split; [exact H|]. intros [df Hdf]. by rewrite H in Hdf.
Qed.

